(** * Near-Earth objects and close approaches: models, loaders, writers

    A shallow embedding of [models.py], [extract.py] and [write.py].  Python
    values are an inductive type, exceptions are the [Raise] branch of a
    result monad, keyword-argument dictionaries are finite maps, and floats
    are IEEE binary64 numbers (the kernel's primitive floats). *)

From Stdlib Require Import ZArith String Ascii PrimFloat DecimalString.
From stdpp Require Import gmap strings list fin_maps sorting.

Open Scope string_scope.

(** ** Python values, exceptions and builtins *)

Module Py.

(** The exceptions the modelled code can raise. *)
Inductive exn : Set :=
| KeyError | ValueError | IndexError | TypeError
| AttributeError | StopIteration | OverflowError.

(** A computation either returns or raises. *)
Inductive result (A : Type) : Type :=
| Ok (a : A)
| Raise (e : exn).
Global Arguments Ok {A} a.
Global Arguments Raise {A} e.

Global Instance result_ret : MRet result := fun A a => Ok a.
Global Instance result_bind : MBind result := fun A B f m =>
  match m with
  | Ok a => f a
  | Raise e => Raise e
  end.

(** The scalars that [csv.reader] (strings only) and [json.load] (null,
    booleans, numbers, strings) hand to the constructors as raw fields. *)
Inductive value : Set :=
| VNone
| VBool (b : bool)
| VInt (z : Z)
| VFloat (f : float)
| VStr (s : string).

(** [not v]: Python's truth test, negated. *)
Definition py_not (v : value) : bool :=
  match v with
  | VNone => true
  | VBool b => negb b
  | VInt z => Z.eqb z 0
  | VFloat f => PrimFloat.eqb f zero
  | VStr s => String.eqb s ""
  end.

(** [v == 'lit'] for a string literal: only a string is equal to a string. *)
Definition eq_str (v : value) (lit : string) : bool :=
  match v with
  | VStr s => String.eqb s lit
  | _ => false
  end.

(** Conversions between floats and text are Python builtins; they are an
    interface of the model.  [None] stands for the exception the builtin
    raises ([ValueError] for a string, [OverflowError] for an integer). *)
Class FloatText : Type := {
  float_of_str : string -> option float;
  float_of_int : Z -> option float;
  (** [repr] of a finite float. *)
  float_repr : float -> string;
  (** [format(x, '.2f')]. *)
  float_fixed2 : float -> string
}.

(** [str(x)] for a float. *)
Definition float_str {FT : FloatText} (f : float) : string :=
  if is_nan f then "nan"
  else if PrimFloat.eqb f infinity then "inf"
  else if PrimFloat.eqb f neg_infinity then "-inf"
  else float_repr f.

(** [float(v)]. *)
Definition py_float {FT : FloatText} (v : value) : result float :=
  match v with
  | VNone => Raise TypeError
  | VBool b => Ok (if b then one else zero)
  | VInt z => match float_of_int z with
              | Some f => Ok f
              | None => Raise OverflowError
              end
  | VFloat f => Ok f
  | VStr s => match float_of_str s with
              | Some f => Ok f
              | None => Raise ValueError
              end
  end.

Definition bool_str (b : bool) : string := if b then "True" else "False".

Definition int_str (z : Z) : string := NilZero.string_of_int (Z.to_int z).

(** [str(v)], also what an f-string placeholder renders. *)
Definition py_str {FT : FloatText} (v : value) : string :=
  match v with
  | VNone => "None"
  | VBool b => bool_str b
  | VInt z => int_str z
  | VFloat f => float_str f
  | VStr s => s
  end.

(** [d[k]] on a keyword-argument dictionary. *)
Definition getkey {A} (d : gmap string A) (k : string) : result A :=
  match d !! k with
  | Some v => Ok v
  | None => Raise KeyError
  end.

(** [l[i]] for a non-negative index. *)
Definition getitem {A} (l : list A) (i : nat) : result A :=
  match l !! i with
  | Some v => Ok v
  | None => Raise IndexError
  end.

(** [l.index(x)]: the position of the first element equal to [x]. *)
Fixpoint index {A} (eqb : A -> string -> bool) (l : list A) (x : string)
  : result nat :=
  match l with
  | [] => Raise ValueError
  | y :: l' => if eqb y x then Ok 0 else i ← index eqb l' x; Ok (S i)
  end.

End Py.
Import Py.

(** ** helpers.py *)

Module Helpers.

(** A naive [datetime.datetime]. *)
Record datetime : Set := mkDatetime {
  year : nat; month : nat; day : nat;
  hour : nat; minute : nat; second : nat; microsecond : nat
}.

Definition dec (n : nat) : string := NilZero.string_of_uint (Nat.to_uint n).

Fixpoint zeros (n : nat) : string :=
  match n with
  | O => ""
  | S n' => String "0" (zeros n')
  end.

(** ['%0wd' % n]. *)
Definition zfill (w n : nat) : string :=
  let s := dec n in zeros (w - String.length s) ++ s.

Definition date_part (d : datetime) : string :=
  zfill 4 (year d) ++ "-" ++ zfill 2 (month d) ++ "-" ++ zfill 2 (day d).

Definition hm_part (d : datetime) : string :=
  zfill 2 (hour d) ++ ":" ++ zfill 2 (minute d).

(** [str(d)], the default representation of a datetime: it always has
    seconds, and microseconds when they are not zero. *)
Definition datetime_str (d : datetime) : string :=
  date_part d ++ " " ++ hm_part d ++ ":" ++ zfill 2 (second d)
  ++ (if Nat.eqb (microsecond d) 0 then "" else "." ++ zfill 6 (microsecond d)).

(** Modelled from the spec: [helpers.datetime_to_str] is not among the
    sources.  The spec describes a canonical time-to-string formatter with
    a fixed minute-precision format and no seconds, and a [datetime_utc]
    that is null when the time is absent. *)
Definition datetime_to_str (t : option datetime) : value :=
  match t with
  | None => VNone
  | Some d => VStr (date_part d ++ " " ++ hm_part d)
  end.

(** The fixed textual calendar format of the feed, as the parser of its
    strings: the format itself is left open by the spec. *)
Class CalendarFormat : Type := {
  strptime_cd : string -> option datetime
}.

(** Modelled from the spec: [helpers.cd_to_datetime] is not among the
    sources.  The spec describes a parser of a fixed textual calendar
    format that yields null for what it cannot parse; a value that is not
    text has no parse. *)
Definition cd_to_datetime {CF : CalendarFormat} (v : value) : option datetime :=
  match v with
  | VStr s => strptime_cd s
  | _ => None
  end.

End Helpers.
Import Helpers.


(** ** models.py *)

Module NearEarthObject.

(** The attributes of a near-Earth object.  [approaches] holds the positions,
    in the collection of loaded approaches, of the object's close
    approaches: the Python objects refer to each other, the records refer by
    position in one direction and by value in the other. *)
Record t : Set := mk {
  designation : value;
  name : value;
  diameter : float;
  hazardous : bool;
  approaches : list nat
}.

(** [NearEarthObject.__init__], on the keyword arguments [info]. *)
Definition init {FT : FloatText} (info : gmap string value) : result t :=
  d ← getkey info "designation";
  let designation := if py_not d then VStr "" else d in
  n ← getkey info "name";
  let name := if py_not n || eq_str n "" then VNone else n in
  x ← getkey info "diameter";
  diameter ← (if py_not x || eq_str x "" then Ok nan else py_float x);
  h ← getkey info "hazardous";
  let hazardous := if eq_str h "Y" then true else false in
  Ok (mk designation name diameter hazardous []).

(** The [fullname] property. *)
Definition fullname {FT : FloatText} (self : t) : string :=
  py_str (designation self) ++ " (" ++ py_str (name self) ++ ")".

(** [str(neo)]. *)
Definition str {FT : FloatText} (self : t) : string :=
  "NEO " ++ fullname self ++ " has a diameter of "
  ++ float_str (diameter self)
  ++ " km and is" ++ (if hazardous self then " " else " not ")
  ++ "potentially hazardous".

End NearEarthObject.

Module CloseApproach.

Record t : Set := mk {
  _designation : value;
  time : option datetime;
  distance : float;
  velocity : float;
  neo : option NearEarthObject.t
}.

(** [CloseApproach.__init__], on the keyword arguments [info]. *)
Definition init {FT : FloatText} {CF : CalendarFormat} (info : gmap string value)
  : result t :=
  d ← getkey info "designation";
  let designation := if py_not d then VStr "" else d in
  c ← getkey info "time";
  let time := if py_not c then None else cd_to_datetime c in
  x ← getkey info "distance";
  distance ← (if py_not x then Ok zero else py_float x);
  v ← getkey info "velocity";
  velocity ← (if py_not v then Ok zero else py_float v);
  Ok (mk designation time distance velocity None).

(** The [time_str] property. *)
Definition time_str (self : t) : value := datetime_to_str (time self).

(** [str(approach)]. *)
Definition str {FT : FloatText} (self : t) : string :=
  "At " ++ py_str (time_str self) ++ ", "
  ++ "'" ++ match neo self with
            | Some n => NearEarthObject.fullname n
            | None => "no Neo "
            end ++ "' "
  ++ "Connecion approaches Earth at a distance of "
  ++ float_fixed2 (distance self) ++ " au and a velocity of "
  ++ float_fixed2 (velocity self) ++ " km/s.".

End CloseApproach.

(** ** extract.py *)

Module Extract.

(** [{f: fields.index(f) for f in fieldsOfInterest}]: the comprehension looks
    the names up in order and stops at the first one that is missing. *)
Fixpoint index_dict {A} (eqb : A -> string -> bool) (fields : list A)
  (fieldsOfInterest : list string) (acc : gmap string nat)
  : result (gmap string nat) :=
  match fieldsOfInterest with
  | [] => Ok acc
  | f :: rest =>
      i ← index eqb fields f;
      index_dict eqb fields rest (<[f := i]> acc)
  end.

(** The keyword arguments of the two constructor calls. *)
Definition neo_info (d n x h : value) : gmap string value :=
  <["hazardous" := h]> (<["diameter" := x]>
  (<["name" := n]> (<["designation" := d]> ∅))).

Definition approach_info (d c x v : value) : gmap string value :=
  <["velocity" := v]> (<["distance" := x]>
  (<["time" := c]> (<["designation" := d]> ∅))).

(** [load_neos], on the rows that [csv.reader] yields for the file: the first
    row is the header, a file with no row at all makes [next] raise. *)
Definition load_neos {FT : FloatText} (csv : list (list string))
  : result (list NearEarthObject.t) :=
  match csv with
  | [] => Raise StopIteration
  | fields :: rows =>
      fieldsOfInterestIndex ←
        index_dict String.eqb fields ["pdes"; "name"; "pha"; "diameter"] ∅;
      mapM (fun row : list string =>
              i ← getkey fieldsOfInterestIndex "pdes";
              d ← getitem row i;
              i ← getkey fieldsOfInterestIndex "name";
              n ← getitem row i;
              i ← getkey fieldsOfInterestIndex "diameter";
              x ← getitem row i;
              i ← getkey fieldsOfInterestIndex "pha";
              h ← getitem row i;
              NearEarthObject.init
                (neo_info (VStr d) (VStr n) (VStr x) (VStr h)))
           rows
  end.

(** The document [json.load] returns for the close-approach feed: an object
    with a [fields] array and a [data] array of arrays. *)
Record cad : Set := mkCad {
  fields : list value;
  data : list (list value)
}.

(** [load_approaches], on the parsed document. *)
Definition load_approaches {FT : FloatText} {CF : CalendarFormat} (jsonData : cad)
  : result (list CloseApproach.t) :=
  itemsIndexInData ←
    index_dict eq_str (fields jsonData) ["des"; "cd"; "dist"; "v_rel"] ∅;
  mapM (fun item : list value =>
          i ← getkey itemsIndexInData "des";
          d ← getitem item i;
          i ← getkey itemsIndexInData "cd";
          c ← getitem item i;
          i ← getkey itemsIndexInData "dist";
          x ← getitem item i;
          i ← getkey itemsIndexInData "v_rel";
          v ← getitem item i;
          CloseApproach.init (approach_info d c x v))
       (data jsonData).

End Extract.

(** ** Well-formed input *)

Module Wellformed.
Import Extract.

(** The cell of [row] under the column that the header calls [f]. *)
Definition cell {A B} (eqb : A -> string -> bool) (fields : list A)
  (row : list B) (f : string) : option B :=
  match index eqb fields f with
  | Ok i => row !! i
  | Raise _ => None
  end.

(** A raw numeric field that the constructors accept: one that is missing,
    or one that [float] converts. *)
Definition convertible {FT : FloatText} (x : value) : Prop :=
  py_not x = true \/ exists f, py_float x = Ok f.

(** A data row of the object file: it has a cell under every column, and
    its diameter is empty or converts. *)
Definition row_wf {FT : FloatText} (fields row : list string) : Prop :=
  length fields <= length row /\
  forall x, cell String.eqb fields row "diameter" = Some x ->
            convertible (VStr x).

(** An entry of the approach feed: it is aligned with the fields, and its
    distance and velocity are missing or convert. *)
Definition item_wf {FT : FloatText} (fields item : list value) : Prop :=
  length fields <= length item /\
  (forall x, cell eq_str fields item "dist" = Some x -> convertible x) /\
  (forall v, cell eq_str fields item "v_rel" = Some v -> convertible v).

(** [neo] is the object constructed from the four named cells of [row]. *)
Definition neo_of_row {FT : FloatText} (fields row : list string)
  (neo : NearEarthObject.t) : Prop :=
  exists d n x h,
    cell String.eqb fields row "pdes" = Some d /\
    cell String.eqb fields row "name" = Some n /\
    cell String.eqb fields row "diameter" = Some x /\
    cell String.eqb fields row "pha" = Some h /\
    NearEarthObject.init (neo_info (VStr d) (VStr n) (VStr x) (VStr h))
    = Ok neo.

(** [a] is the approach constructed from the four named cells of [item]. *)
Definition approach_of_item {FT : FloatText} {CF : CalendarFormat}
  (fields item : list value) (a : CloseApproach.t) : Prop :=
  exists d c x v,
    cell eq_str fields item "des" = Some d /\
    cell eq_str fields item "cd" = Some c /\
    cell eq_str fields item "dist" = Some x /\
    cell eq_str fields item "v_rel" = Some v /\
    CloseApproach.init (approach_info d c x v) = Ok a.

End Wellformed.

(** ** write.py *)

Module Write.

Definition fieldnames : list string :=
  ["datetime_utc"; "distance_au"; "velocity_km_s";
   "designation"; "name"; "diameter_km"; "potentially_hazardous"].

(** What [csv.writer] makes of a field: [None] becomes the empty string, a
    string is taken as it is, anything else goes through [str]. *)
Definition csv_field {FT : FloatText} (v : value) : string :=
  match v with
  | VNone => ""
  | _ => py_str v
  end.

Definition csv_time (t : option datetime) : string :=
  match t with
  | None => ""
  | Some d => datetime_str d
  end.

(** The list handed to [writer.writerow] for one approach, as fields. *)
Definition csv_row {FT : FloatText} (closeApproach : CloseApproach.t)
  (neo : NearEarthObject.t) : list string :=
  [csv_time (CloseApproach.time closeApproach);
   float_str (CloseApproach.distance closeApproach);
   float_str (CloseApproach.velocity closeApproach);
   csv_field (NearEarthObject.designation neo);
   csv_field (NearEarthObject.name neo);
   float_str (NearEarthObject.diameter neo);
   bool_str (NearEarthObject.hazardous neo)].

(** The loop of [write_to_csv]: [out] is what the file holds so far.  Reading
    an attribute of a [neo] that is [None] raises, and the file keeps the
    rows written before. *)
Fixpoint write_rows {FT : FloatText} (results : list CloseApproach.t)
  (out : list (list string)) : list (list string) * result unit :=
  match results with
  | [] => (out, Ok tt)
  | closeApproach :: rest =>
      match CloseApproach.neo closeApproach with
      | None => (out, Raise AttributeError)
      | Some neo => write_rows rest (out ++ [csv_row closeApproach neo])
      end
  end.

(** [write_to_csv]: the records of the file, each a list of fields, and how
    the call ended.  Quoting and joining the fields is the [csv] module's. *)
Definition write_to_csv {FT : FloatText} (results : list CloseApproach.t)
  : list (list string) * result unit :=
  write_rows results [fieldnames].

(** A JSON document, objects in insertion order. *)
#[warnings="-register-all"] Inductive json : Set :=
| JNull
| JBool (b : bool)
| JInt (z : Z)
| JFloat (f : float)
| JStr (s : string)
| JArray (items : list json)
| JObject (members : list (string * json)).

(** What [json.dump] makes of a scalar. *)
Definition json_of_value (v : value) : json :=
  match v with
  | VNone => JNull
  | VBool b => JBool b
  | VInt z => JInt z
  | VFloat f => JFloat f
  | VStr s => JStr s
  end.

(** [obj[key]] on a document. *)
Definition member (key : string) (obj : json) : option json :=
  match obj with
  | JObject members =>
      snd <$> List.find (fun kv => String.eqb (fst kv) key) members
  | _ => None
  end.

Definition neo_dict {FT : FloatText} (neo : NearEarthObject.t) : json :=
  JObject
    [("designation", JStr (py_str (NearEarthObject.designation neo)));
     ("name", json_of_value (NearEarthObject.name neo));
     ("diameter_km", JFloat (NearEarthObject.diameter neo));
     ("potentially_hazardous", JBool (NearEarthObject.hazardous neo))].

Definition ApproachDict {FT : FloatText} (closeApproach : CloseApproach.t)
  (neo : NearEarthObject.t) : json :=
  JObject
    [("datetime_utc",
      json_of_value (datetime_to_str (CloseApproach.time closeApproach)));
     ("distance_au", JFloat (CloseApproach.distance closeApproach));
     ("velocity_km_s", JFloat (CloseApproach.velocity closeApproach));
     ("neo", neo_dict neo)].

(** The loop of [write_to_json], appending to [Approachs]. *)
Fixpoint collect {FT : FloatText} (results : list CloseApproach.t)
  (Approachs : list json) : result (list json) :=
  match results with
  | [] => Ok Approachs
  | closeApproach :: rest =>
      match CloseApproach.neo closeApproach with
      | None => Raise AttributeError
      | Some neo => collect rest (Approachs ++ [ApproachDict closeApproach neo])
      end
  end.

(** [write_to_json]: the document handed to [json.dump].  When the loop
    raises, nothing is dumped. *)
Definition write_to_json {FT : FloatText} (results : list CloseApproach.t)
  : result json :=
  Approachs ← collect results [];
  Ok (JArray Approachs).

End Write.

(** ** The linking step of the database *)

Module Database.

Definition value_eqb (a b : value) : bool :=
  match a, b with
  | VNone, VNone => true
  | VBool x, VBool y => Bool.eqb x y
  | VInt x, VInt y => Z.eqb x y
  | VFloat x, VFloat y => PrimFloat.eqb x y
  | VStr x, VStr y => String.eqb x y
  | _, _ => false
  end.

(** Modelled from the spec: the database module is not among the sources.
    The spec has an approach whose designation matches no object linked to a
    sentinel unknown object, whose placeholder values are an empty name, a
    not-a-number diameter and a false hazardous flag. *)
Definition unknown_object : NearEarthObject.t :=
  NearEarthObject.mk (VStr "") VNone nan false [].

(** Modelled from the spec: the database module is not among the sources.
    The index from designation to object, as a lookup by exact match. *)
Definition get_neo_by_designation (neos : list NearEarthObject.t)
  (designation : value) : option NearEarthObject.t :=
  List.find (fun n => value_eqb (NearEarthObject.designation n) designation)
            neos.

(** The positions, from [i] on, of the approaches of a designation, in the
    collection as it is handed to [Build]. *)
Fixpoint positions (designation : value) (approaches : list CloseApproach.t)
  (i : nat) : list nat :=
  match approaches with
  | [] => []
  | a :: rest =>
      if value_eqb (CloseApproach._designation a) designation
      then i :: positions designation rest (S i)
      else positions designation rest (S i)
  end.

(** Modelled from the spec: the database module is not among the sources.
    On a hit the approach joins the object's [approaches] collection. *)
Definition populate (approaches : list CloseApproach.t)
  (n : NearEarthObject.t) : NearEarthObject.t :=
  NearEarthObject.mk
    (NearEarthObject.designation n) (NearEarthObject.name n)
    (NearEarthObject.diameter n) (NearEarthObject.hazardous n)
    (NearEarthObject.approaches n
     ++ positions (NearEarthObject.designation n) approaches 0).

(** Modelled from the spec: the database module is not among the sources.
    Each approach resolves its designation against the index; on a hit its
    [neo] is the object, on a miss it is the unknown object. *)
Definition link (neos : list NearEarthObject.t) (a : CloseApproach.t)
  : CloseApproach.t :=
  CloseApproach.mk
    (CloseApproach._designation a) (CloseApproach.time a)
    (CloseApproach.distance a) (CloseApproach.velocity a)
    (Some (match get_neo_by_designation neos (CloseApproach._designation a) with
           | Some n => n
           | None => unknown_object
           end)).

Record t : Set := mk {
  neos : list NearEarthObject.t;
  approaches : list CloseApproach.t
}.

(** Modelled from the spec: the database module is not among the sources.
    The order of two times is that of their calendar fields, from the year
    down; an approach with no time comes before those that have one (the
    spec gives a null time no place of its own). *)
Fixpoint lex_leb (a b : list nat) : bool :=
  match a, b with
  | [], _ => true
  | _ :: _, [] => false
  | x :: a', y :: b' => Nat.ltb x y || (Nat.eqb x y && lex_leb a' b')
  end.

Definition time_key (d : datetime) : list nat :=
  [year d; month d; day d; hour d; minute d; second d; microsecond d].

Definition time_leb (s t : option datetime) : bool :=
  match s, t with
  | None, _ => true
  | Some _, None => false
  | Some a, Some b => lex_leb (time_key a) (time_key b)
  end.

(** Two times that are each not later than the other. *)
Definition same_time (s t : option datetime) : bool :=
  time_leb s t && time_leb t s.

(** Modelled from the spec: the database module is not among the sources.
    A stable sort by time ascending: each approach, from the last to the
    first, goes in front of the first approach that is not earlier than it,
    so approaches of equal time keep the order of the input. *)
Fixpoint insert_by_time (a : CloseApproach.t) (l : list CloseApproach.t)
  : list CloseApproach.t :=
  match l with
  | [] => [a]
  | b :: l' =>
      if time_leb (CloseApproach.time a) (CloseApproach.time b)
      then a :: b :: l'
      else b :: insert_by_time a l'
  end.

Definition sort_by_time (l : list CloseApproach.t) : list CloseApproach.t :=
  foldr insert_by_time [] l.

(** Modelled from the spec: the database module is not among the sources.
    Building the database gives every object its approaches, links every
    approach, and sorts the linked approaches by time ascending, stably. *)
Definition Build (objects : list NearEarthObject.t)
  (approaches : list CloseApproach.t) : t :=
  let neos := map (populate approaches) objects in
  mk neos (sort_by_time (map (link neos) approaches)).

End Database.

(** ** Sample data *)

Module Sample.

(** A table of conversions for the sample data below. *)
#[warnings="-inexact-float"] Definition float_text : FloatText := {|
  float_of_str s :=
    if String.eqb s "16.84" then Some 16.84%float
    else if String.eqb s "0.5" then Some 0.5%float
    else if String.eqb s "10.0" then Some 10%float
    else None;
  float_of_int z := if Z.eqb z 0 then Some zero else None;
  float_repr f :=
    if PrimFloat.eqb f 16.84 then "16.84"
    else if PrimFloat.eqb f 0.5 then "0.5"
    else if PrimFloat.eqb f 10 then "10.0"
    else "0.0";
  float_fixed2 f :=
    if PrimFloat.eqb f 16.84 then "16.84"
    else if PrimFloat.eqb f 0.5 then "0.50"
    else if PrimFloat.eqb f 10 then "10.00"
    else "0.00"
|}.

(** A parser that knows the one calendar date of the sample data. *)
Definition calendar_format : CalendarFormat := {|
  strptime_cd s :=
    if String.eqb s "2020-Jan-01 00:00"
    then Some (mkDatetime 2020 1 1 0 0 0 0)
    else None
|}.

(** The object of the spec's example, and one with the name left empty. *)
Definition eros_info : gmap string value :=
  Extract.neo_info (VStr "433") (VStr "Eros") (VStr "16.84") (VStr "N").

Definition unnamed_info : gmap string value :=
  Extract.neo_info (VStr "433") (VStr "") (VStr "") (VStr "y").

Definition eros_approach_info : gmap string value :=
  Extract.approach_info (VStr "433") (VStr "2020-Jan-01 00:00") (VStr "0.5")
    (VStr "10.0").

Definition garbled_approach_info : gmap string value :=
  Extract.approach_info (VStr "433") (VStr "next Tuesday") VNone (VStr "10.0").

(** The object and the approach of the spec's example, as constructed, and
    an approach whose designation no object has. *)
#[warnings="-inexact-float"] Definition eros : NearEarthObject.t :=
  NearEarthObject.mk (VStr "433") (VStr "Eros") 16.84 false [].

Definition eros_approach : CloseApproach.t :=
  CloseApproach.mk (VStr "433") (Some (mkDatetime 2020 1 1 0 0 0 0))
    0.5 10 None.

Definition stray_approach : CloseApproach.t :=
  CloseApproach.mk (VStr "2099 ZZ") None 0 10 None.

(** The approach of the example once it refers to its object. *)
Definition eros_linked : CloseApproach.t :=
  CloseApproach.mk (VStr "433") (Some (mkDatetime 2020 1 1 0 0 0 0))
    0.5 10 (Some eros).

(** An object file and an approach feed, and the same with a column gone. *)
Definition neo_csv : list (list string) :=
  [["id"; "pdes"; "name"; "pha"; "diameter"];
   ["a0000433"; "433"; "Eros"; "N"; "16.84"];
   ["bK99A00A"; "1999 AA"; ""; "Y"; ""]].

Definition neo_csv_no_pha : list (list string) :=
  [["id"; "pdes"; "name"; "diameter"];
   ["a0000433"; "433"; "Eros"; "16.84"]].

Definition cad_json : Extract.cad :=
  Extract.mkCad
    [VStr "des"; VStr "orbit_id"; VStr "cd"; VStr "dist"; VStr "v_rel"]
    [[VStr "433"; VStr "659"; VStr "2020-Jan-01 00:00"; VStr "0.5";
      VStr "10.0"];
     [VStr "2099 ZZ"; VStr "1"; VStr "next Tuesday"; VNone; VStr "10.0"]].

Definition cad_json_no_dist : Extract.cad :=
  Extract.mkCad
    [VStr "des"; VStr "orbit_id"; VStr "cd"; VStr "v_rel"]
    [[VStr "433"; VStr "659"; VStr "2020-Jan-01 00:00"; VStr "10.0"]].

End Sample.

(** ** Tables of records *)

Module Tables.
Import Extract.

(** The rows of a table whose records are known by column name: each record
    gives the value under a name, and its row lists the values in the order
    of the header. *)
Definition rows_of {A B} (fields : list A) (recs : list (A -> B))
  : list (list B) :=
  map (fun rec => map rec fields) recs.

(** The body of the loop of [load_neos], for the dictionary [m]. *)
Definition neo_call {FT : FloatText} (m : gmap string nat)
  (row : list string) : result NearEarthObject.t :=
  i ← getkey m "pdes";
  d ← getitem row i;
  i ← getkey m "name";
  n ← getitem row i;
  i ← getkey m "diameter";
  x ← getitem row i;
  i ← getkey m "pha";
  h ← getitem row i;
  NearEarthObject.init (neo_info (VStr d) (VStr n) (VStr x) (VStr h)).

(** The body of the comprehension of [load_approaches]. *)
Definition approach_call {FT : FloatText} {CF : CalendarFormat}
  (m : gmap string nat) (item : list value) : result CloseApproach.t :=
  i ← getkey m "des";
  d ← getitem item i;
  i ← getkey m "cd";
  c ← getitem item i;
  i ← getkey m "dist";
  x ← getitem item i;
  i ← getkey m "v_rel";
  v ← getitem item i;
  CloseApproach.init (approach_info d c x v).

(** The same calls, told by the cells of the row under the four names: a
    cell that is not there makes the subscript raise before the constructor
    is called. *)
Definition neo_of_cells {FT : FloatText} (fields row : list string)
  : result NearEarthObject.t :=
  match Wellformed.cell String.eqb fields row "pdes",
        Wellformed.cell String.eqb fields row "name",
        Wellformed.cell String.eqb fields row "diameter",
        Wellformed.cell String.eqb fields row "pha" with
  | Some d, Some n, Some x, Some h =>
      NearEarthObject.init (neo_info (VStr d) (VStr n) (VStr x) (VStr h))
  | _, _, _, _ => Raise IndexError
  end.

Definition approach_of_cells {FT : FloatText} {CF : CalendarFormat}
  (fields item : list value) : result CloseApproach.t :=
  match Wellformed.cell eq_str fields item "des",
        Wellformed.cell eq_str fields item "cd",
        Wellformed.cell eq_str fields item "dist",
        Wellformed.cell eq_str fields item "v_rel" with
  | Some d, Some c, Some x, Some v =>
      CloseApproach.init (approach_info d c x v)
  | _, _, _, _ => Raise IndexError
  end.

End Tables.

(** ** More sample data *)

Module Cases.

(** The object file of the sample with its columns in another order. *)
Definition neo_csv_reordered : list (list string) :=
  [["diameter"; "pha"; "name"; "pdes"];
   ["16.84"; "N"; "Eros"; "433"];
   [""; "Y"; ""; "1999 AA"]].

(** The two records of the sample object file, by column name. *)
Definition eros_record (f : string) : string :=
  if String.eqb f "pdes" then "433"
  else if String.eqb f "name" then "Eros"
  else if String.eqb f "pha" then "N"
  else if String.eqb f "diameter" then "16.84"
  else "a0000433".

Definition aa_record (f : string) : string :=
  if String.eqb f "pdes" then "1999 AA"
  else if String.eqb f "pha" then "Y"
  else if String.eqb f "id" then "bK99A00A"
  else "".

(** The two entries of the sample approach feed, by field name. *)
Definition eros_entry (f : value) : value :=
  if eq_str f "des" then VStr "433"
  else if eq_str f "cd" then VStr "2020-Jan-01 00:00"
  else if eq_str f "dist" then VStr "0.5"
  else if eq_str f "v_rel" then VStr "10.0"
  else VStr "659".

Definition stray_entry (f : value) : value :=
  if eq_str f "des" then VStr "2099 ZZ"
  else if eq_str f "cd" then VStr "next Tuesday"
  else if eq_str f "dist" then VNone
  else if eq_str f "v_rel" then VStr "10.0"
  else VStr "1".

(** An object file with a blank line, and one with a diameter that is not a
    number. *)
Definition neo_csv_blank_line : list (list string) :=
  [["pdes"; "name"; "pha"; "diameter"];
   ["433"; "Eros"; "N"; "16.84"];
   [];
   ["1999 AA"; ""; "Y"; ""]].

Definition neo_csv_bad_diameter : list (list string) :=
  [["pdes"; "name"; "pha"; "diameter"];
   ["433"; "Eros"; "N"; "16.84"];
   ["1999 AA"; ""; "Y"; "unknown"]].

(** Keyword arguments with a diameter of zero, given as a number. *)
Definition zero_diameter_info : gmap string value :=
  Extract.neo_info (VStr "433") (VStr "Eros") (VFloat 0) (VStr "N").

(** Keyword arguments of an approach with nothing but a designation. *)
Definition bare_approach_info : gmap string value :=
  Extract.approach_info (VInt 433) VNone (VStr "") VNone.

(** An approach linked to an object that has no name and a number for its
    designation. *)
Definition unnamed_linked : CloseApproach.t :=
  CloseApproach.mk (VInt 433) (Some (mkDatetime 2020 1 1 0 0 0 0)) 0.5 10
    (Some (NearEarthObject.mk (VInt 433) VNone nan false [])).

(** Approaches out of order: one of 2021, two of the first minute of 2020
    that differ in their distance, and one of no object and no time. *)
Definition approach_2021 : CloseApproach.t :=
  CloseApproach.mk (VStr "433") (Some (mkDatetime 2021 6 1 12 30 0 0))
    0.5 10 None.

Definition approach_2020_far : CloseApproach.t :=
  CloseApproach.mk (VStr "433") (Some (mkDatetime 2020 1 1 0 0 0 0))
    10 0.5 None.

End Cases.

(** * Properties *)

Import Extract Write Wellformed.
Import Tables.

(** ** The result monad and the list builtins *)

Section Builtins.

Context {A B : Type}.

Lemma bind_Raise (m : result A) (f : A -> result B) (e : exn) :
  m = Raise e -> (m ≫= f) = Raise e.
Proof. by intros ->. Qed.

Variable eqb : A -> string -> bool.

Lemma index_Raise (l : list A) (x : string) (e : exn) :
  index eqb l x = Raise e -> e = ValueError.
Proof.
  induction l as [|y l IH]; cbn; [by intros [= <-]|].
  destruct (eqb y x); [done|].
  destruct (index eqb l x); cbn; [done|]. intros [= <-]. by apply IH.
Qed.

Lemma index_absent (l : list A) (x : string) :
  Forall (fun y => eqb y x = false) l -> index eqb l x = Raise ValueError.
Proof.
  induction 1 as [|y l Hy _ IH]; cbn; [done|]. by rewrite Hy, IH.
Qed.

Lemma index_present (l : list A) (x : string) :
  Exists (fun y => eqb y x = true) l ->
  exists i y, index eqb l x = Ok i /\ l !! i = Some y /\ eqb y x = true.
Proof.
  induction 1 as [y l Hy|y l _ (i & z & Hi & Hz & Hzx)]; cbn.
  - rewrite Hy. by exists 0, y.
  - destruct (eqb y x) eqn:Hy; [by exists 0, y|].
    rewrite Hi. by exists (S i), z.
Qed.

(** A name that the list lacks makes the whole comprehension raise. *)
Lemma index_dict_missing (l : list A) (names : list string)
  (acc : gmap string nat) (f : string) :
  f ∈ names -> index eqb l f = Raise ValueError ->
  index_dict eqb l names acc = Raise ValueError.
Proof.
  intros Hf Hraise. revert acc.
  induction Hf as [f names|f g names _ IH]; intros acc; cbn.
  - by rewrite Hraise.
  - destruct (index eqb l g) as [i|e] eqn:Hi; cbn; [by apply IH|].
    f_equal. by eapply index_Raise.
Qed.

End Builtins.

Lemma eq_str_true (v : value) (s : string) : eq_str v s = true <-> v = VStr s.
Proof.
  destruct v; cbn; try (split; [done|by intros [=]]).
  rewrite String.eqb_eq. split; [by intros ->|by intros [= ->]].
Qed.

Lemma eq_str_false (v : value) (s : string) : eq_str v s = false <-> v <> VStr s.
Proof.
  rewrite <- eq_str_true. destruct (eq_str v s); split; congruence.
Qed.

Lemma lacks_str (l : list string) (f : string) :
  f ∉ l -> Forall (fun y => String.eqb y f = false) l.
Proof.
  intros Hf. apply Forall_forall. intros y Hy.
  apply String.eqb_neq. intros ->. by apply Hf.
Qed.

Lemma lacks_value (l : list value) (f : string) :
  VStr f ∉ l -> Forall (fun y => eq_str y f = false) l.
Proof.
  intros Hf. apply Forall_forall. intros y Hy.
  apply eq_str_false. intros ->. by apply Hf.
Qed.

Section Loading.

Context {FT : FloatText} {CF : CalendarFormat}.

Lemma load_neos_missing_field (fields : list string)
  (rows : list (list string)) (f : string) :
  f ∈ ["pdes"; "name"; "pha"; "diameter"] -> f ∉ fields ->
  load_neos (fields :: rows) = Raise ValueError.
Proof.
  intros Hf Hlacks. unfold load_neos.
  erewrite bind_Raise; [done|].
  eapply index_dict_missing; [exact Hf|].
  by apply index_absent, lacks_str.
Qed.

Lemma load_approaches_missing_field (jsonData : cad) (f : string) :
  f ∈ ["des"; "cd"; "dist"; "v_rel"] -> VStr f ∉ fields jsonData ->
  load_approaches jsonData = Raise ValueError.
Proof.
  intros Hf Hlacks. unfold load_approaches.
  erewrite bind_Raise; [done|].
  eapply index_dict_missing; [exact Hf|].
  by apply index_absent, lacks_value.
Qed.

End Loading.

(** ** The constructors *)

Lemma getkey_Some {A} (d : gmap string A) (k : string) (v : A) :
  d !! k = Some v -> getkey d k = Ok v.
Proof. unfold getkey. by intros ->. Qed.

Lemma nan_not_zero : nan <> zero.
Proof.
  intros Heq. assert (Hc : is_nan nan = is_nan zero) by (by rewrite Heq).
  vm_compute in Hc. discriminate.
Qed.

Lemma py_not_empty (v : value) : v = VNone \/ v = VStr "" -> py_not v = true.
Proof. by intros [-> | ->]. Qed.

Lemma eq_str_empty_not (v : value) : eq_str v "" = true -> py_not v = true.
Proof. intros Hv%eq_str_true. by subst. Qed.

Section Constructors.

Context {FT : FloatText} {CF : CalendarFormat}.

(** The object that the constructor returns when the four keyword arguments
    are given and the diameter, if there is one, converts. *)
Lemma NearEarthObject_init_Ok (info : gmap string value) (d n x h : value) :
  info !! "designation" = Some d -> info !! "name" = Some n ->
  info !! "diameter" = Some x -> info !! "hazardous" = Some h ->
  convertible x ->
  exists f,
    (if py_not x then Ok nan else py_float x) = Ok f /\
    NearEarthObject.init info
    = Ok (NearEarthObject.mk (if py_not d then VStr "" else d)
            (if py_not n then VNone else n) f
            (if eq_str h "Y" then true else false) []).
Proof.
  intros Hd Hn Hx Hh Hconv.
  assert (exists f, (if py_not x then Ok nan else py_float x) = Ok f)
    as [f Hf].
  { destruct Hconv as [-> | [f Hf]]; [by eauto|].
    destruct (py_not x); eauto. }
  exists f. split; [done|].
  unfold NearEarthObject.init.
  rewrite (getkey_Some _ _ _ Hd), (getkey_Some _ _ _ Hn),
    (getkey_Some _ _ _ Hx), (getkey_Some _ _ _ Hh). cbn.
  assert (Hor : forall v, py_not v || eq_str v "" = py_not v).
  { intros v. destruct (py_not v) eqn:Hv; [done|]. cbn.
    destruct (eq_str v "") eqn:Hv'; [|done].
    apply eq_str_empty_not in Hv'. congruence. }
  rewrite !Hor, Hf. done.
Qed.

(** The approach that the constructor returns when the four keyword
    arguments are given and the distance and the velocity, if there are any,
    convert. *)
Lemma CloseApproach_init_Ok (info : gmap string value) (d c x v : value) :
  info !! "designation" = Some d -> info !! "time" = Some c ->
  info !! "distance" = Some x -> info !! "velocity" = Some v ->
  convertible x -> convertible v ->
  exists fx fv,
    (if py_not x then Ok zero else py_float x) = Ok fx /\
    (if py_not v then Ok zero else py_float v) = Ok fv /\
    CloseApproach.init info
    = Ok (CloseApproach.mk (if py_not d then VStr "" else d)
            (if py_not c then None else cd_to_datetime c) fx fv None).
Proof.
  intros Hd Hc Hx Hv Hcx Hcv.
  assert (exists f, (if py_not x then Ok zero else py_float x) = Ok f)
    as [fx Hfx].
  { destruct Hcx as [-> | [f Hf]]; [by eauto|]. destruct (py_not x); eauto. }
  assert (exists f, (if py_not v then Ok zero else py_float v) = Ok f)
    as [fv Hfv].
  { destruct Hcv as [-> | [f Hf]]; [by eauto|]. destruct (py_not v); eauto. }
  exists fx, fv. split; [done|]. split; [done|].
  unfold CloseApproach.init.
  rewrite (getkey_Some _ _ _ Hd), (getkey_Some _ _ _ Hc),
    (getkey_Some _ _ _ Hx), (getkey_Some _ _ _ Hv). cbn.
  rewrite Hfx. cbn. rewrite Hfv. done.
Qed.

(** A constructed approach refers to no object yet. *)
Lemma CloseApproach_init_unlinked (info : gmap string value)
  (a : CloseApproach.t) :
  CloseApproach.init info = Ok a -> CloseApproach.neo a = None.
Proof.
  unfold CloseApproach.init.
  destruct (getkey info "designation"); cbn; [|done].
  destruct (getkey info "time"); cbn; [|done].
  destruct (getkey info "distance") as [x|]; cbn; [|done].
  destruct (if py_not x then Ok zero else py_float x); cbn; [|done].
  destruct (getkey info "velocity") as [v|]; cbn; [|done].
  destruct (if py_not v then Ok zero else py_float v); cbn; [|done].
  by intros [= <-].
Qed.

(** A keyword argument that is not given at all makes the constructor
    raise. *)
Lemma NearEarthObject_init_absent_key (info : gmap string value) :
  info !! "designation" = None ->
  NearEarthObject.init info = Raise KeyError.
Proof. intros Hd. unfold NearEarthObject.init, getkey. by rewrite Hd. Qed.

End Constructors.

(** ** Normalisation of the raw fields *)

Section Normalisation.

Context {FT : FloatText} {CF : CalendarFormat}.

(** C3.  The time of a constructed approach is null when the raw time is
    missing (null or empty) or has no parse under the calendar format, and
    it is the parsed timestamp otherwise; a malformed time string gives an
    approach with a null time, not an exception. *)
Theorem approach_time_null_or_parsed (info : gmap string value)
  (d c x v : value) :
  info !! "designation" = Some d -> info !! "time" = Some c ->
  info !! "distance" = Some x -> info !! "velocity" = Some v ->
  convertible x -> convertible v ->
  exists a,
    CloseApproach.init info = Ok a /\
    (c = VNone \/ c = VStr "" \/ cd_to_datetime c = None ->
     CloseApproach.time a = None) /\
    (forall s t, c = VStr s -> s <> "" -> strptime_cd s = Some t ->
     CloseApproach.time a = Some t).
Proof.
  intros Hd Hc Hx Hv Hcx Hcv.
  destruct (CloseApproach_init_Ok info d c x v Hd Hc Hx Hv Hcx Hcv)
    as (fx & fv & _ & _ & Hinit).
  eexists. split; [exact Hinit|]. cbn. split.
  - intros [-> | [-> | Hnone]]; [done|done|].
    rewrite Hnone. by destruct (py_not c).
  - intros s t -> Hs Ht. cbn.
    destruct (String.eqb s "") eqn:Heq; [by apply String.eqb_eq in Heq|done].
Qed.

(** C4, as the code has it.  The full name is the designation followed by
    the name in parentheses, as in [433 (Eros)]; when the name is absent the
    parentheses hold the text [None]. *)
Theorem fullname_designation_and_name (info : gmap string value)
  (d n x h : value) :
  info !! "designation" = Some d -> info !! "name" = Some n ->
  info !! "diameter" = Some x -> info !! "hazardous" = Some h ->
  convertible x ->
  exists neo,
    NearEarthObject.init info = Ok neo /\
    (forall s, n = VStr s -> s <> "" ->
     NearEarthObject.fullname neo
     = py_str (NearEarthObject.designation neo) ++ " (" ++ s ++ ")") /\
    (n = VNone \/ n = VStr "" ->
     NearEarthObject.fullname neo
     = py_str (NearEarthObject.designation neo) ++ " (None)").
Proof.
  intros Hd Hn Hx Hh Hconv.
  destruct (NearEarthObject_init_Ok info d n x h Hd Hn Hx Hh Hconv)
    as (f & _ & Hinit).
  eexists. split; [exact Hinit|].
  unfold NearEarthObject.fullname. cbn. split.
  - intros s -> Hs. cbn.
    destruct (String.eqb s "") eqn:Heq; [by apply String.eqb_eq in Heq|done].
  - by intros [-> | ->].
Qed.

(** C5.  The hazardous flag of a constructed object is true exactly when the
    raw token is the string [Y]; any other token, a lowercase [y], another
    truthy-looking value or a missing value, gives false. *)
Theorem hazardous_iff_Y (info : gmap string value) (d n x h : value) :
  info !! "designation" = Some d -> info !! "name" = Some n ->
  info !! "diameter" = Some x -> info !! "hazardous" = Some h ->
  convertible x ->
  exists neo,
    NearEarthObject.init info = Ok neo /\
    (NearEarthObject.hazardous neo = true <-> h = VStr "Y") /\
    (NearEarthObject.hazardous neo = false <-> h <> VStr "Y").
Proof.
  intros Hd Hn Hx Hh Hconv.
  destruct (NearEarthObject_init_Ok info d n x h Hd Hn Hx Hh Hconv)
    as (f & _ & Hinit).
  eexists. split; [exact Hinit|]. cbn.
  split; [rewrite <- eq_str_true|rewrite <- eq_str_false];
    by destruct (eq_str h "Y").
Qed.

(** C6.  A missing or empty designation becomes the empty string and a
    designation is never null; a missing or empty name becomes null, which
    is not the empty string; a missing or empty diameter becomes
    not-a-number, which is not zero. *)
Theorem missing_fields_normalised (info : gmap string value)
  (d n x h : value) :
  info !! "designation" = Some d -> info !! "name" = Some n ->
  info !! "diameter" = Some x -> info !! "hazardous" = Some h ->
  convertible x ->
  exists neo,
    NearEarthObject.init info = Ok neo /\
    ((d = VNone \/ d = VStr "" -> NearEarthObject.designation neo = VStr "")
     /\ NearEarthObject.designation neo <> VNone) /\
    ((n = VNone \/ n = VStr "" -> NearEarthObject.name neo = VNone)
     /\ VNone <> VStr "") /\
    ((x = VNone \/ x = VStr "" -> NearEarthObject.diameter neo = nan)
     /\ nan <> zero /\ PrimFloat.eqb nan zero = false).
Proof.
  intros Hd Hn Hx Hh Hconv.
  destruct (NearEarthObject_init_Ok info d n x h Hd Hn Hx Hh Hconv)
    as (f & Hf & Hinit).
  eexists. split; [exact Hinit|]. cbn. repeat split.
  - by intros [-> | ->].
  - destruct (py_not d) eqn:Hnot; [done|]. by intros ->.
  - by intros [-> | ->].
  - done.
  - intros Hempty. rewrite (py_not_empty x Hempty) in Hf. congruence.
  - exact nan_not_zero.
Qed.

End Normalisation.

(** ** Loading *)

Section IndexDict.

Context {A : Type} (eqb : A -> string -> bool).

Lemma index_lt (l : list A) (x : string) (i : nat) :
  index eqb l x = Ok i -> i < length l.
Proof.
  revert i. induction l as [|y l IH]; intros i; cbn; [done|].
  destruct (eqb y x); [intros [= <-]; lia|].
  destruct (index eqb l x) as [j|e]; cbn; [|done].
  intros [= <-]. specialize (IH j eq_refl). lia.
Qed.

(** When every name is in the list, the comprehension returns a dictionary
    that sends each name to its position. *)
Lemma index_dict_Ok (l : list A) (names : list string)
  (acc : gmap string nat) :
  Forall (fun f => Exists (fun y => eqb y f = true) l) names ->
  exists m,
    index_dict eqb l names acc = Ok m /\
    forall f, f ∈ names -> exists i, m !! f = Some i /\ index eqb l f = Ok i.
Proof.
  intros Hall.
  cut (exists m, index_dict eqb l names acc = Ok m /\
         forall f, (f ∈ names -> exists i, m !! f = Some i
                                           /\ index eqb l f = Ok i)
                   /\ (f ∉ names -> m !! f = acc !! f)).
  { intros (m & Hm & Hlook). exists m. split; [done|]. apply Hlook. }
  revert acc. induction Hall as [|g names Hg _ IH]; intros acc; cbn.
  - exists acc. split; [done|]. intros f. split; [by intros ?%elem_of_nil|done].
  - destruct (index_present eqb l g Hg) as (i & y & Hi & _).
    rewrite Hi. cbn.
    destruct (IH (<[g := i]> acc)) as (m & Hm & Hlook).
    exists m. split; [done|]. intros f.
    destruct (Hlook f) as [Hin Hout].
    destruct (decide (f ∈ names)) as [Hf|Hf].
    + split; [auto|]. intros Hnot. exfalso. apply Hnot. by right.
    + split.
      * intros [->|?]%elem_of_cons; [|done].
        exists i. by rewrite Hout, lookup_insert_eq.
      * intros Hnot. rewrite Hout by done.
        apply lookup_insert_ne. intros ->. apply Hnot. by left.
Qed.

(** The cell that a call reads through the dictionary. *)
Lemma cell_read {B} (l : list A) (m : gmap string nat) (row : list B)
  (f : string) (i : nat) :
  m !! f = Some i -> index eqb l f = Ok i -> length l <= length row ->
  exists c,
    cell eqb l row f = Some c /\
    getkey m f = Ok i /\ getitem row i = Ok c.
Proof.
  intros Hm Hi Hlen. apply index_lt in Hi as Hlt.
  destruct (lookup_lt_is_Some_2 row i) as [c Hc]; [lia|].
  exists c. unfold cell. rewrite Hi. split; [done|].
  split; [by apply getkey_Some|]. unfold getitem. by rewrite Hc.
Qed.

End IndexDict.

Lemma neo_info_lookup (d n x h : value) :
  neo_info d n x h !! "designation" = Some d /\
  neo_info d n x h !! "name" = Some n /\
  neo_info d n x h !! "diameter" = Some x /\
  neo_info d n x h !! "hazardous" = Some h.
Proof. unfold neo_info. repeat split; by simplify_map_eq. Qed.

Lemma approach_info_lookup (d c x v : value) :
  approach_info d c x v !! "designation" = Some d /\
  approach_info d c x v !! "time" = Some c /\
  approach_info d c x v !! "distance" = Some x /\
  approach_info d c x v !! "velocity" = Some v.
Proof. unfold approach_info. repeat split; by simplify_map_eq. Qed.

Lemma mapM_Ok_with {A B} (f : A -> result B) (P : A -> B -> Prop)
  (l : list A) :
  Forall (fun x => exists y, f x = Ok y /\ P x y) l ->
  exists k, mapM f l = Ok k /\ Forall2 P l k.
Proof.
  induction 1 as [|x l (y & Hy & HP) _ (k & Hk & HPs)].
  - exists []. by split; [|constructor].
  - exists (y :: k). split; [|by constructor].
    cbn. rewrite Hy. cbn. by rewrite Hk.
Qed.

Lemma Forall2_positions {A B} (P : A -> B -> Prop) (l : list A) (k : list B) :
  Forall2 P l k ->
  length k = length l /\
  forall i x, l !! i = Some x -> exists y, k !! i = Some y /\ P x y.
Proof.
  intros HP. split; [symmetry; by eapply Forall2_length|].
  intros i x Hx. by eapply Forall2_lookup_l.
Qed.

Section LoadingRecords.

Context {FT : FloatText} {CF : CalendarFormat}.

Lemma load_neos_Ok (fields : list string) (rows : list (list string)) :
  (forall f, f ∈ ["pdes"; "name"; "pha"; "diameter"] -> f ∈ fields) ->
  Forall (row_wf fields) rows ->
  exists neos,
    load_neos (fields :: rows) = Ok neos /\
    Forall2 (neo_of_row fields) rows neos.
Proof.
  intros Hhdr Hrows. unfold load_neos.
  destruct (index_dict_Ok String.eqb fields
              ["pdes"; "name"; "pha"; "diameter"] ∅) as (m & Hm & Hlook).
  { apply Forall_forall. intros f Hf. apply Exists_exists.
    exists f. split; [by apply Hhdr|apply String.eqb_refl]. }
  rewrite Hm. cbn.
  apply mapM_Ok_with. eapply Forall_impl; [exact Hrows|].
  intros row [Hlen Hdia].
  destruct (Hlook "pdes") as (i1 & Hm1 & Hi1); [set_solver|].
  destruct (Hlook "name") as (i2 & Hm2 & Hi2); [set_solver|].
  destruct (Hlook "diameter") as (i3 & Hm3 & Hi3); [set_solver|].
  destruct (Hlook "pha") as (i4 & Hm4 & Hi4); [set_solver|].
  destruct (cell_read String.eqb fields m row _ _ Hm1 Hi1 Hlen)
    as (d & Hd & Hk1 & Hr1).
  destruct (cell_read String.eqb fields m row _ _ Hm2 Hi2 Hlen)
    as (n & Hn & Hk2 & Hr2).
  destruct (cell_read String.eqb fields m row _ _ Hm3 Hi3 Hlen)
    as (x & Hx & Hk3 & Hr3).
  destruct (cell_read String.eqb fields m row _ _ Hm4 Hi4 Hlen)
    as (h & Hh & Hk4 & Hr4).
  rewrite Hk1; cbn; rewrite Hr1; cbn. rewrite Hk2; cbn; rewrite Hr2; cbn.
  rewrite Hk3; cbn; rewrite Hr3; cbn. rewrite Hk4; cbn; rewrite Hr4; cbn.
  destruct (neo_info_lookup (VStr d) (VStr n) (VStr x) (VStr h))
    as (Ld & Ln & Lx & Lh).
  destruct (NearEarthObject_init_Ok _ _ _ _ _ Ld Ln Lx Lh (Hdia x Hx))
    as (f & _ & Hinit).
  eexists. split; [exact Hinit|]. by exists d, n, x, h.
Qed.

Lemma load_approaches_Ok (jsonData : cad) :
  (forall f, f ∈ ["des"; "cd"; "dist"; "v_rel"] ->
             VStr f ∈ fields jsonData) ->
  Forall (item_wf (fields jsonData)) (data jsonData) ->
  exists approaches,
    load_approaches jsonData = Ok approaches /\
    Forall2 (approach_of_item (fields jsonData)) (data jsonData) approaches.
Proof.
  intros Hhdr Hitems. unfold load_approaches.
  destruct (index_dict_Ok eq_str (fields jsonData)
              ["des"; "cd"; "dist"; "v_rel"] ∅) as (m & Hm & Hlook).
  { apply Forall_forall. intros f Hf. apply Exists_exists.
    exists (VStr f). split; [by apply Hhdr|by apply eq_str_true]. }
  rewrite Hm. cbn.
  apply mapM_Ok_with. eapply Forall_impl; [exact Hitems|].
  intros item (Hlen & Hdist & Hvel).
  destruct (Hlook "des") as (i1 & Hm1 & Hi1); [set_solver|].
  destruct (Hlook "cd") as (i2 & Hm2 & Hi2); [set_solver|].
  destruct (Hlook "dist") as (i3 & Hm3 & Hi3); [set_solver|].
  destruct (Hlook "v_rel") as (i4 & Hm4 & Hi4); [set_solver|].
  destruct (cell_read eq_str (fields jsonData) m item _ _ Hm1 Hi1 Hlen)
    as (d & Hd & Hk1 & Hr1).
  destruct (cell_read eq_str (fields jsonData) m item _ _ Hm2 Hi2 Hlen)
    as (c & Hc & Hk2 & Hr2).
  destruct (cell_read eq_str (fields jsonData) m item _ _ Hm3 Hi3 Hlen)
    as (x & Hx & Hk3 & Hr3).
  destruct (cell_read eq_str (fields jsonData) m item _ _ Hm4 Hi4 Hlen)
    as (v & Hv & Hk4 & Hr4).
  rewrite Hk1; cbn; rewrite Hr1; cbn. rewrite Hk2; cbn; rewrite Hr2; cbn.
  rewrite Hk3; cbn; rewrite Hr3; cbn. rewrite Hk4; cbn; rewrite Hr4; cbn.
  destruct (approach_info_lookup d c x v) as (Ld & Lc & Lx & Lv).
  destruct (CloseApproach_init_Ok _ _ _ _ _ Ld Lc Lx Lv (Hdist x Hx)
              (Hvel v Hv)) as (fx & fv & _ & _ & Hinit).
  eexists. split; [exact Hinit|]. by exists d, c, x, v.
Qed.

(** C7.  When the header of the object file, or the field list of the
    approach feed, lacks one of the four expected names, loading raises at
    once, whatever the rows are, and returns no collection. *)
Theorem missing_field_name_raises :
  (forall (fields : list string) (rows : list (list string)) (f : string),
     f ∈ ["pdes"; "name"; "pha"; "diameter"] -> f ∉ fields ->
     load_neos (fields :: rows) = Raise ValueError) /\
  (forall (jsonData : cad) (f : string),
     f ∈ ["des"; "cd"; "dist"; "v_rel"] -> VStr f ∉ fields jsonData ->
     load_approaches jsonData = Raise ValueError).
Proof.
  split.
  - apply load_neos_missing_field.
  - apply load_approaches_missing_field.
Qed.

(** C9.  On well-formed input [load_neos] returns one object for each data
    row and [load_approaches] one approach for each entry of the data array,
    each constructed from its own record and at its record's position; no
    record is dropped, and no object is looked up to decide it. *)
Theorem one_entity_per_record :
  (forall (fields : list string) (rows : list (list string)),
     (forall f, f ∈ ["pdes"; "name"; "pha"; "diameter"] -> f ∈ fields) ->
     Forall (row_wf fields) rows ->
     exists neos,
       load_neos (fields :: rows) = Ok neos /\
       length neos = length rows /\
       forall i row, rows !! i = Some row ->
         exists neo, neos !! i = Some neo /\ neo_of_row fields row neo) /\
  (forall jsonData : cad,
     (forall f, f ∈ ["des"; "cd"; "dist"; "v_rel"] ->
                VStr f ∈ fields jsonData) ->
     Forall (item_wf (fields jsonData)) (data jsonData) ->
     exists approaches,
       load_approaches jsonData = Ok approaches /\
       length approaches = length (data jsonData) /\
       forall i item, data jsonData !! i = Some item ->
         exists a, approaches !! i = Some a
                   /\ approach_of_item (fields jsonData) item a).
Proof.
  split.
  - intros fields rows Hhdr Hrows.
    destruct (load_neos_Ok fields rows Hhdr Hrows) as (neos & Hload & Hall).
    exists neos. split; [done|]. by apply Forall2_positions.
  - intros jsonData Hhdr Hitems.
    destruct (load_approaches_Ok jsonData Hhdr Hitems)
      as (approaches & Hload & Hall).
    exists approaches. split; [done|]. by apply Forall2_positions.
Qed.

End LoadingRecords.

(** ** Writing *)

Section Writing.

Context {FT : FloatText}.

Local Open Scope list_scope.

(** The loop of [write_to_csv] on linked approaches: it appends one row for
    each, in order, and returns. *)
Lemma write_rows_linked (results : list CloseApproach.t)
  (out : list (list string)) :
  Forall (fun a => is_Some (CloseApproach.neo a)) results ->
  exists rows,
    write_rows results out = ((out ++ rows)%list, Ok tt) /\
    Forall2 (fun a row => exists n, CloseApproach.neo a = Some n
                                    /\ row = csv_row a n) results rows.
Proof.
  intros Hall. revert out.
  induction Hall as [|a results [n Hn] _ IH]; intros out; cbn.
  - exists []. split; [by rewrite app_nil_r|constructor].
  - rewrite Hn. destruct (IH (out ++ [csv_row a n])) as (rows & Hw & Hrows).
    exists (csv_row a n :: rows). split.
    + by rewrite Hw, <- app_assoc.
    + constructor; [by exists n|done].
Qed.

(** The loop stops at the first approach that has no object: the file keeps
    the rows of the approaches before it and the call raises. *)
Lemma write_rows_unlinked (before after : list CloseApproach.t)
  (a : CloseApproach.t) (out : list (list string)) :
  Forall (fun a => is_Some (CloseApproach.neo a)) before ->
  CloseApproach.neo a = None ->
  exists rows,
    write_rows (before ++ a :: after) out 
    = ((out ++ rows)%list, Raise AttributeError)
    /\ length rows = length before.
Proof.
  intros Hall Ha. revert out.
  induction Hall as [|b before [n Hn] _ IH]; intros out; cbn.
  - rewrite Ha. exists []. by rewrite app_nil_r.
  - rewrite Hn. destruct (IH (out ++ [csv_row b n])) as (rows & Hw & Hlen).
    exists (csv_row b n :: rows). split.
    + by rewrite Hw, <- app_assoc.
    + cbn. by rewrite Hlen.
Qed.

(** The loop of [write_to_json] on linked approaches. *)
Lemma collect_linked (results : list CloseApproach.t) (acc : list json) :
  Forall (fun a => is_Some (CloseApproach.neo a)) results ->
  exists docs,
    collect results acc = Ok (acc ++ docs)%list /\
    Forall2 (fun a doc => exists n, CloseApproach.neo a = Some n
                                    /\ doc = ApproachDict a n) results docs.
Proof.
  intros Hall. revert acc.
  induction Hall as [|a results [n Hn] _ IH]; intros acc; cbn.
  - exists []. split; [by rewrite app_nil_r|constructor].
  - rewrite Hn.
    destruct (IH (acc ++ [ApproachDict a n])) as (docs & Hc & Hdocs).
    exists (ApproachDict a n :: docs). split.
    + by rewrite Hc, <- app_assoc.
    + constructor; [by exists n|done].
Qed.

Lemma write_to_json_linked (results : list CloseApproach.t) :
  Forall (fun a => is_Some (CloseApproach.neo a)) results ->
  exists docs,
    write_to_json results = Ok (JArray docs) /\
    Forall2 (fun a doc => exists n, CloseApproach.neo a = Some n
                                    /\ doc = ApproachDict a n) results docs.
Proof.
  intros Hall. destruct (collect_linked results [] Hall) as (docs & Hc & Hd).
  exists docs. split; [|done]. unfold write_to_json. by rewrite Hc.
Qed.

(** C8.  [write_to_csv] writes the header of seven column names first and
    then one row for each approach, in the order of the results, the fields
    of a row being those of the approach and of its object in the order of
    the header. *)
Theorem csv_header_then_row_per_approach (results : list CloseApproach.t) :
  Forall (fun a => is_Some (CloseApproach.neo a)) results ->
  exists rows,
    write_to_csv results
    = (["datetime_utc"; "distance_au"; "velocity_km_s"; "designation";
        "name"; "diameter_km"; "potentially_hazardous"] :: rows, Ok tt) /\
    length rows = length results /\
    forall i a, results !! i = Some a ->
      exists n,
        CloseApproach.neo a = Some n /\
        rows !! i
        = Some [csv_time (CloseApproach.time a);
                float_str (CloseApproach.distance a);
                float_str (CloseApproach.velocity a);
                csv_field (NearEarthObject.designation n);
                csv_field (NearEarthObject.name n);
                float_str (NearEarthObject.diameter n);
                bool_str (NearEarthObject.hazardous n)].
Proof.
  intros Hall.
  destruct (write_rows_linked results [fieldnames] Hall) as (rows & Hw & Hrows).
  exists rows. split; [exact Hw|].
  destruct (Forall2_positions _ _ _ Hrows) as [Hlen Hpos].
  split; [done|]. intros i a Ha.
  destruct (Hpos i a Ha) as (row & Hrow & n & Hn & ->). by exists n.
Qed.

(** C10.  In the document of [write_to_json] the nested object of an approach
    has the designation as a string, and the name as the model has it: null,
    not a string, when the object has no name. *)
Theorem json_name_null_designation_string (results : list CloseApproach.t) :
  Forall (fun a => is_Some (CloseApproach.neo a)) results ->
  exists docs,
    write_to_json results = Ok (JArray docs) /\
    length docs = length results /\
    forall i a, results !! i = Some a ->
      exists n doc o,
        CloseApproach.neo a = Some n /\
        docs !! i = Some doc /\
        member "neo" doc = Some o /\
        member "designation" o
        = Some (JStr (py_str (NearEarthObject.designation n))) /\
        member "name" o = Some (json_of_value (NearEarthObject.name n)) /\
        (NearEarthObject.name n = VNone ->
         member "name" o = Some JNull /\ forall s, JNull <> JStr s).
Proof.
  intros Hall.
  destruct (write_to_json_linked results Hall) as (docs & Hw & Hdocs).
  exists docs. split; [exact Hw|].
  destruct (Forall2_positions _ _ _ Hdocs) as [Hlen Hpos].
  split; [done|]. intros i a Ha.
  destruct (Hpos i a Ha) as (doc & Hdoc & n & Hn & ->).
  exists n, (ApproachDict a n), (neo_dict n).
  do 5 (split; [done|]).
  intros Hname. split; [|done]. cbn. by rewrite Hname.
Qed.

End Writing.

(** ** The time of an approach, as text *)

Lemma length_append (s t : string) :
  String.length (s ++ t) = String.length s + String.length t.
Proof. induction s as [|c s IH]; simpl; [done|]. by f_equal. Qed.

(** The default representation of a datetime is never the minute-precision
    text: it is that text and the seconds after it. *)
Lemma datetime_str_has_seconds (d : datetime) :
  VStr (datetime_str d) <> datetime_to_str (Some d).
Proof.
  unfold datetime_str, datetime_to_str. intros [= Heq].
  apply (f_equal String.length) in Heq.
  rewrite !length_append in Heq. cbn in Heq. lia.
Qed.

Section TimeText.

Context {FT : FloatText}.

(** The display of an approach opens with the formatted time. *)
Lemma str_uses_formatter (a : CloseApproach.t) :
  exists rest,
    CloseApproach.str a
    = "At " ++ py_str (datetime_to_str (CloseApproach.time a)) ++ rest.
Proof. unfold CloseApproach.str, CloseApproach.time_str. eauto. Qed.

(** [write_to_json] emits the formatted time. *)
Lemma json_uses_formatter (a : CloseApproach.t) (n : NearEarthObject.t) :
  member "datetime_utc" (ApproachDict a n)
  = Some (json_of_value (datetime_to_str (CloseApproach.time a))).
Proof. done. Qed.

(** [write_to_csv] emits the default representation of the time, which for
    every approach that has a time differs from the formatted one. *)
Lemma csv_skips_formatter (a : CloseApproach.t) (n : NearEarthObject.t)
  (d : datetime) :
  CloseApproach.time a = Some d ->
  exists c,
    csv_row a n !! 0 = Some c /\
    c = datetime_str d /\
    VStr c <> datetime_to_str (CloseApproach.time a).
Proof.
  intros Ht. exists (datetime_str d). cbn. rewrite Ht. cbn.
  split; [done|]. split; [done|]. apply datetime_str_has_seconds.
Qed.

End TimeText.

(** C2, at the approach of the spec's example.  The display and the JSON
    document carry the minute-precision text of the time; the CSV file
    carries the default representation, with seconds. *)
Theorem csv_datetime_keeps_seconds :
  CloseApproach.time_str Sample.eros_linked = VStr "2020-01-01 00:00" /\
  (exists doc,
     write_to_json (FT := Sample.float_text) [Sample.eros_linked]
     = Ok (JArray [doc]) /\
     member "datetime_utc" doc = Some (JStr "2020-01-01 00:00")) /\
  write_to_csv (FT := Sample.float_text) [Sample.eros_linked]
  = ([["datetime_utc"; "distance_au"; "velocity_km_s"; "designation";
       "name"; "diameter_km"; "potentially_hazardous"];
      ["2020-01-01 00:00:00"; "0.5"; "10.0"; "433"; "Eros"; "16.84";
       "False"]], Ok tt) /\
  VStr "2020-01-01 00:00:00" <> CloseApproach.time_str Sample.eros_linked.
Proof.
  split; [reflexivity|]. split; [eexists; split; reflexivity|].
  split; [reflexivity|]. discriminate.
Qed.

(** ** Linking *)

Section Sorting.

Import Database.

Local Open Scope list_scope.

Lemma lex_leb_cons (x y : nat) (a b : list nat) :
  lex_leb (x :: a) (y :: b) = Nat.ltb x y || (Nat.eqb x y && lex_leb a b).
Proof. reflexivity. Qed.

Lemma lex_leb_total (a b : list nat) :
  lex_leb a b = false -> lex_leb b a = true.
Proof.
  revert b. induction a as [|x a IH]; intros [|y b]; try done.
  rewrite !lex_leb_cons.
  destruct (Nat.ltb_spec x y), (Nat.ltb_spec y x), (Nat.eqb_spec x y),
    (Nat.eqb_spec y x); simpl orb; simpl andb; try done; try lia.
  apply IH.
Qed.

Lemma lex_leb_trans (a b c : list nat) :
  lex_leb a b = true -> lex_leb b c = true -> lex_leb a c = true.
Proof.
  revert b c. induction a as [|x a IH]; intros [|y b] [|z c]; try done.
  rewrite !lex_leb_cons.
  destruct (Nat.ltb_spec x y), (Nat.ltb_spec y z), (Nat.ltb_spec x z),
    (Nat.eqb_spec x y), (Nat.eqb_spec y z), (Nat.eqb_spec x z);
    simpl orb; simpl andb; try done; try lia.
  apply IH.
Qed.

Lemma time_leb_total (s t : option datetime) :
  time_leb s t = false -> time_leb t s = true.
Proof. destruct s, t; try done. apply lex_leb_total. Qed.

Lemma time_leb_trans (s t u : option datetime) :
  time_leb s t = true -> time_leb t u = true -> time_leb s u = true.
Proof. destruct s, t, u; try done. apply lex_leb_trans. Qed.

(** The sort keeps the approaches: what it returns is a rearrangement. *)
Lemma insert_by_time_perm (a : CloseApproach.t) (l : list CloseApproach.t) :
  insert_by_time a l ≡ₚ a :: l.
Proof.
  induction l as [|b l IH]; cbn; [done|].
  destruct (time_leb (CloseApproach.time a) (CloseApproach.time b)); [done|].
  rewrite IH. apply perm_swap.
Qed.

Lemma sort_by_time_perm (l : list CloseApproach.t) : sort_by_time l ≡ₚ l.
Proof.
  induction l as [|a l IH]; cbn; [done|].
  by rewrite insert_by_time_perm, IH.
Qed.

(** It returns them in time-ascending order. *)
Lemma insert_by_time_sorted (a : CloseApproach.t) (l : list CloseApproach.t) :
  Sorted (fun x y => time_leb (CloseApproach.time x) (CloseApproach.time y)
                     = true) l ->
  Sorted (fun x y => time_leb (CloseApproach.time x) (CloseApproach.time y)
                     = true) (insert_by_time a l).
Proof.
  induction 1 as [|b l Hl IH Hb]; cbn; [by repeat constructor|].
  destruct (time_leb (CloseApproach.time a) (CloseApproach.time b)) eqn:Hab.
  - constructor; [by constructor|by constructor].
  - constructor; [exact IH|].
    destruct Hb as [|c l Hbc]; cbn.
    + constructor. by apply time_leb_total.
    + destruct (time_leb (CloseApproach.time a) (CloseApproach.time c));
        constructor; [by apply time_leb_total|done].
Qed.

Lemma sort_by_time_sorted (l : list CloseApproach.t) :
  Sorted (fun x y => time_leb (CloseApproach.time x) (CloseApproach.time y)
                     = true) (sort_by_time l).
Proof.
  induction l as [|a l IH]; cbn; [constructor|].
  by apply insert_by_time_sorted.
Qed.

(** It is stable: the approaches of one time keep the order of the input. *)
Lemma insert_by_time_stable (t : option datetime) (a : CloseApproach.t)
  (l : list CloseApproach.t) :
  List.filter (fun x => same_time (CloseApproach.time x) t)
    (insert_by_time a l)
  = List.filter (fun x => same_time (CloseApproach.time x) t) (a :: l).
Proof.
  induction l as [|b l IH]; [done|]. cbn [insert_by_time].
  destruct (time_leb (CloseApproach.time a) (CloseApproach.time b)) eqn:Hab;
    [done|].
  cbn [List.filter] in *. rewrite IH.
  destruct (same_time (CloseApproach.time a) t) eqn:Ha; [|done].
  destruct (same_time (CloseApproach.time b) t) eqn:Hb; [|done].
  apply andb_true_iff in Ha as [Hat _]. apply andb_true_iff in Hb as [_ Htb].
  rewrite (time_leb_trans _ _ _ Hat Htb) in Hab. done.
Qed.

Lemma sort_by_time_stable (t : option datetime) (l : list CloseApproach.t) :
  List.filter (fun x => same_time (CloseApproach.time x) t) (sort_by_time l)
  = List.filter (fun x => same_time (CloseApproach.time x) t) l.
Proof.
  induction l as [|a l IH]; [done|]. cbn [sort_by_time foldr].
  rewrite insert_by_time_stable. cbn [List.filter].
  fold (sort_by_time l). by rewrite IH.
Qed.

End Sorting.

Section Linking.

Context {FT : FloatText}.

Local Open Scope list_scope.

Lemma link_is_linked (neos : list NearEarthObject.t) (a : CloseApproach.t) :
  is_Some (CloseApproach.neo (Database.link neos a)).
Proof. cbn. eauto. Qed.

(** Populating the objects does not change which designations they answer
    to. *)
Lemma get_neo_populate (approaches : list CloseApproach.t)
  (objects : list NearEarthObject.t) (d : value) :
  Database.get_neo_by_designation
    (map (Database.populate approaches) objects) d
  = Database.populate approaches
      <$> Database.get_neo_by_designation objects d.
Proof.
  unfold Database.get_neo_by_designation.
  induction objects as [|n objects IH]; cbn; [done|].
  by destruct (Database.value_eqb (NearEarthObject.designation n) d).
Qed.

(** The approaches of the database are the linked approaches, rearranged. *)
Lemma Build_perm (objects : list NearEarthObject.t)
  (approaches : list CloseApproach.t) :
  Database.approaches (Database.Build objects approaches)
  ≡ₚ map (Database.link (Database.neos (Database.Build objects approaches)))
       approaches.
Proof. cbn. apply sort_by_time_perm. Qed.

Lemma Build_linked (objects : list NearEarthObject.t)
  (approaches : list CloseApproach.t) :
  Forall (fun a => is_Some (CloseApproach.neo a))
         (Database.approaches (Database.Build objects approaches)).
Proof.
  rewrite Build_perm. apply Forall_forall.
  intros a (b & -> & _)%list_elem_of_fmap. apply link_is_linked.
Qed.

(** The approaches of the database are in time-ascending order, those of one
    time in the order of the input. *)
Lemma Build_sorted (objects : list NearEarthObject.t)
  (approaches : list CloseApproach.t) :
  Sorted (fun x y => Database.time_leb (CloseApproach.time x)
                       (CloseApproach.time y) = true)
         (Database.approaches (Database.Build objects approaches)).
Proof. cbn. apply sort_by_time_sorted. Qed.

Lemma Build_stable (objects : list NearEarthObject.t)
  (approaches : list CloseApproach.t) (t : option datetime) :
  List.filter (fun x => Database.same_time (CloseApproach.time x) t)
    (Database.approaches (Database.Build objects approaches))
  = List.filter (fun x => Database.same_time (CloseApproach.time x) t)
      (map (Database.link
              (Database.neos (Database.Build objects approaches)))
         approaches).
Proof. cbn. apply sort_by_time_stable. Qed.

(** The fields that the two writers emit for the unknown object. *)
Lemma unknown_object_csv (a : CloseApproach.t) :
  exists t x v,
    csv_row a Database.unknown_object = [t; x; v; ""; ""; "nan"; "False"].
Proof. unfold csv_row. cbn. eauto. Qed.

Lemma unknown_object_json :
  neo_dict Database.unknown_object
  = JObject [("designation", JStr ""); ("name", JNull);
             ("diameter_km", JFloat nan);
             ("potentially_hazardous", JBool false)].
Proof. done. Qed.

(** C1.  Building the database keeps every approach, and one whose
    designation no object has is in the database's collection linked to the
    unknown object, nothing being raised; any results drawn from the
    database, in whatever order and number, are written by [write_to_csv]
    and [write_to_json], with the placeholders of the unknown object where
    an approach has it: an empty name (null in JSON), a not-a-number
    diameter and a false hazardous flag. *)
Theorem unresolved_approach_is_serialised (objects : list NearEarthObject.t)
  (approaches results : list CloseApproach.t) :
  (forall a, a ∈ results ->
             a ∈ Database.approaches (Database.Build objects approaches)) ->
  length (Database.approaches (Database.Build objects approaches))
  = length approaches /\
  (forall a,
     a ∈ approaches ->
     Database.get_neo_by_designation objects (CloseApproach._designation a)
     = None ->
     CloseApproach.mk
       (CloseApproach._designation a) (CloseApproach.time a)
       (CloseApproach.distance a) (CloseApproach.velocity a)
       (Some Database.unknown_object)
     ∈ Database.approaches (Database.Build objects approaches)) /\
  exists rows docs,
    write_to_csv results = (fieldnames :: rows, Ok tt) /\
    write_to_json results = Ok (JArray docs) /\
    forall i a,
      results !! i = Some a ->
      CloseApproach.neo a = Some Database.unknown_object ->
      (exists t x v,
         rows !! i = Some [t; x; v; ""; ""; "nan"; "False"]) /\
      (exists doc,
         docs !! i = Some doc /\
         member "neo" doc
         = Some (JObject [("designation", JStr ""); ("name", JNull);
                          ("diameter_km", JFloat nan);
                          ("potentially_hazardous", JBool false)])).
Proof.
  intros Hdrawn. split; [|split].
  - rewrite Build_perm. apply length_map.
  - intros a Ha Hmiss. rewrite Build_perm. apply list_elem_of_fmap.
    exists a. split; [|done]. cbn.
    unfold Database.link. by rewrite get_neo_populate, Hmiss.
  - assert (Hall : Forall (fun a => is_Some (CloseApproach.neo a)) results).
    { apply Forall_forall. intros a Ha.
      pose proof (Build_linked objects approaches) as Hdb.
      rewrite Forall_forall in Hdb. by apply Hdb, Hdrawn. }
    destruct (write_rows_linked results [fieldnames] Hall)
      as (rows & Hw & Hrows).
    destruct (write_to_json_linked results Hall) as (docs & Hj & Hdocs).
    exists rows, docs. split; [exact Hw|]. split; [exact Hj|].
    intros i a Ha Hunknown. split.
    + destruct (Forall2_lookup_l _ _ _ _ _ Hrows Ha)
        as (row & Hrow & n & Hn & ->).
      rewrite Hrow. assert (n = Database.unknown_object) as -> by congruence.
      destruct (unknown_object_csv a) as (t & x & v & ->). eauto.
    + destruct (Forall2_lookup_l _ _ _ _ _ Hdocs Ha)
        as (doc & Hdoc & n & Hn & ->).
      assert (n = Database.unknown_object) as -> by congruence.
      eexists. split; [exact Hdoc|]. unfold ApproachDict. cbn.
      by rewrite unknown_object_json.
Qed.

End Linking.

(** * The properties on the sample data *)

(** Membership in a list of literals. *)
Ltac list_has :=
  repeat first [apply list_elem_of_here | apply list_elem_of_further].

Ltac list_lacks :=
  let H := fresh in
  intros H;
  repeat (apply elem_of_cons in H as [H|H]; [discriminate H|]);
  exact (proj1 (elem_of_nil _) H).

Ltac list_covers :=
  let f := fresh in let H := fresh in
  intros f H;
  repeat (apply elem_of_cons in H as [->|H]; [list_has|]);
  destruct (proj1 (elem_of_nil _) H).

Section Samples.

Local Existing Instance Sample.float_text.
Local Existing Instance Sample.calendar_format.

Example init_eros : NearEarthObject.init Sample.eros_info = Ok Sample.eros.
Proof. reflexivity. Qed.

Example init_eros_approach :
  CloseApproach.init Sample.eros_approach_info = Ok Sample.eros_approach.
Proof. reflexivity. Qed.

Example str_eros :
  NearEarthObject.str Sample.eros
  = "NEO 433 (Eros) has a diameter of 16.84 km and is not potentially hazardous".
Proof. reflexivity. Qed.

Example str_eros_linked :
  CloseApproach.str Sample.eros_linked
  = "At 2020-01-01 00:00, '433 (Eros)' Connecion approaches Earth at a distance of 0.50 au and a velocity of 10.00 km/s.".
Proof. reflexivity. Qed.

Example load_neos_sample :
  load_neos Sample.neo_csv
  = Ok [Sample.eros;
        NearEarthObject.mk (VStr "1999 AA") VNone nan true []].
Proof. reflexivity. Qed.

Example load_approaches_sample :
  load_approaches Sample.cad_json
  = Ok [Sample.eros_approach; Sample.stray_approach].
Proof. reflexivity. Qed.

(** An approach as the loader returns it has no object, and writing it
    raises after the header. *)
Example write_unlinked_raises :
  write_to_csv [Sample.eros_approach] = ([fieldnames], Raise AttributeError)
  /\ write_to_json [Sample.eros_approach] = Raise AttributeError.
Proof. split; reflexivity. Qed.

(** The database puts the approach with no time first and keeps the two
    approaches of one time in the order of the input. *)
Example Build_sorts_by_time :
  CloseApproach.distance
    <$> Database.approaches
          (Database.Build [Sample.eros]
             [Cases.approach_2021; Cases.approach_2020_far;
              Sample.stray_approach; Sample.eros_approach])
  = [0%float; 10%float; 0.5%float; 0.5%float]
  /\ CloseApproach.time
      <$> Database.approaches
            (Database.Build [Sample.eros]
               [Cases.approach_2021; Cases.approach_2020_far;
                Sample.stray_approach; Sample.eros_approach])
    = [None; Some (mkDatetime 2020 1 1 0 0 0 0);
       Some (mkDatetime 2020 1 1 0 0 0 0);
       Some (mkDatetime 2021 6 1 12 30 0 0)].
Proof. split; reflexivity. Qed.

(** The approach of the example and a stray one, linked against the one
    object of the example: the stray approach gets the unknown object and
    both are written. *)
Lemma unresolved_approach_is_serialised_witness :
  let db := Database.Build [Sample.eros]
              [Sample.eros_approach; Sample.stray_approach] in
  Database.get_neo_by_designation [Sample.eros]
    (CloseApproach._designation Sample.stray_approach) = None /\
  CloseApproach.mk (VStr "2099 ZZ") None 0 10 (Some Database.unknown_object)
  ∈ Database.approaches db /\
  exists rows docs,
    write_to_csv (Database.approaches db) = (fieldnames :: rows, Ok tt) /\
    write_to_json (Database.approaches db) = Ok (JArray docs) /\
    forall i a,
      Database.approaches db !! i = Some a ->
      CloseApproach.neo a = Some Database.unknown_object ->
      (exists t x v,
         rows !! i = Some [t; x; v; ""; ""; "nan"; "False"]) /\
      (exists doc,
         docs !! i = Some doc /\
         member "neo" doc
         = Some (JObject [("designation", JStr ""); ("name", JNull);
                          ("diameter_km", JFloat nan);
                          ("potentially_hazardous", JBool false)])).
Proof.
  intros db. split; [reflexivity|].
  destruct (unresolved_approach_is_serialised [Sample.eros]
              [Sample.eros_approach; Sample.stray_approach]
              (Database.approaches db)) as (_ & Hin & Hwritten).
  - intros a Ha. exact Ha.
  - split; [|exact Hwritten].
    apply (Hin Sample.stray_approach); [list_has|reflexivity].
Defined.

(** A time that is not a calendar date gives an approach with no time. *)
Lemma approach_time_null_or_parsed_witness :
  exists a,
    CloseApproach.init Sample.garbled_approach_info = Ok a /\
    CloseApproach.time a = None.
Proof.
  destruct (approach_time_null_or_parsed Sample.garbled_approach_info
              (VStr "433") (VStr "next Tuesday") VNone (VStr "10.0"))
    as (a & Hinit & Hnull & _).
  - reflexivity.
  - reflexivity.
  - reflexivity.
  - reflexivity.
  - left. reflexivity.
  - right. eexists. reflexivity.
  - exists a. split; [exact Hinit|]. apply Hnull. right. right. reflexivity.
Defined.

(** The object of the example is called [433 (Eros)]. *)
Lemma fullname_designation_and_name_witness :
  exists neo,
    NearEarthObject.init Sample.eros_info = Ok neo /\
    NearEarthObject.fullname neo = "433 (Eros)".
Proof.
  destruct (fullname_designation_and_name Sample.eros_info
              (VStr "433") (VStr "Eros") (VStr "16.84") (VStr "N"))
    as (neo & Hinit & Hnamed & _).
  - reflexivity.
  - reflexivity.
  - reflexivity.
  - reflexivity.
  - right. eexists. reflexivity.
  - exists neo. split; [exact Hinit|].
    rewrite (Hnamed "Eros" eq_refl ltac:(discriminate)).
    assert (Heros : NearEarthObject.init Sample.eros_info = Ok Sample.eros)
      by reflexivity.
    rewrite Heros in Hinit. injection Hinit as <-. reflexivity.
Defined.

(** An object with no name is called [433 (None)]: the null is rendered
    inside the parentheses. *)
Lemma fullname_renders_absent_name :
  exists neo,
    NearEarthObject.init Sample.unnamed_info = Ok neo /\
    NearEarthObject.name neo = VNone /\
    NearEarthObject.fullname neo = "433 (None)"%string.
Proof. eexists. split; [reflexivity|]. split; reflexivity. Qed.

(** A lowercase [y] is not the token. *)
Lemma hazardous_iff_Y_witness :
  exists neo,
    NearEarthObject.init Sample.unnamed_info = Ok neo /\
    NearEarthObject.hazardous neo = false.
Proof.
  destruct (hazardous_iff_Y Sample.unnamed_info
              (VStr "433") (VStr "") (VStr "") (VStr "y"))
    as (neo & Hinit & _ & Hfalse).
  - reflexivity.
  - reflexivity.
  - reflexivity.
  - reflexivity.
  - left. reflexivity.
  - exists neo. split; [exact Hinit|]. by apply Hfalse.
Defined.

(** An object with an empty name and an empty diameter. *)
Lemma missing_fields_normalised_witness :
  exists neo,
    NearEarthObject.init Sample.unnamed_info = Ok neo /\
    NearEarthObject.name neo = VNone /\
    NearEarthObject.diameter neo = nan.
Proof.
  destruct (missing_fields_normalised Sample.unnamed_info
              (VStr "433") (VStr "") (VStr "") (VStr "y"))
    as (neo & Hinit & _ & [Hname _] & [Hdia _]).
  - reflexivity.
  - reflexivity.
  - reflexivity.
  - reflexivity.
  - left. reflexivity.
  - exists neo. split; [exact Hinit|]. split; [apply Hname|apply Hdia]; auto.
Defined.

(** A header without [pha] and a field list without [dist]. *)
Lemma missing_field_name_raises_witness :
  load_neos Sample.neo_csv_no_pha = Raise ValueError /\
  load_approaches Sample.cad_json_no_dist = Raise ValueError.
Proof.
  split.
  - apply (proj1 missing_field_name_raises _ _ "pha"%string).
    + list_has.
    + list_lacks.
  - apply (proj2 missing_field_name_raises Sample.cad_json_no_dist
             "dist"%string).
    + list_has.
    + cbn. list_lacks.
Defined.

(** The linked approach of the example, written as a row. *)
Lemma csv_header_then_row_per_approach_witness :
  exists rows,
    write_to_csv [Sample.eros_linked] = (fieldnames :: rows, Ok tt) /\
    length rows = 1.
Proof.
  destruct (csv_header_then_row_per_approach [Sample.eros_linked])
    as (rows & Hw & Hlen & _).
  - apply Forall_cons. split; [by exists Sample.eros|by apply Forall_nil].
  - exists rows. split; [exact Hw|exact Hlen].
Defined.

(** Two rows give two objects and two entries give two approaches. *)
Lemma one_entity_per_record_witness :
  (exists neos, load_neos Sample.neo_csv = Ok neos /\ length neos = 2) /\
  (exists approaches,
     load_approaches Sample.cad_json = Ok approaches
     /\ length approaches = 2).
Proof.
  split.
  - destruct (proj1 one_entity_per_record
                ["id"; "pdes"; "name"; "pha"; "diameter"]%string
                (tail Sample.neo_csv)) as (neos & Hload & Hlen & _).
    + list_covers.
    + apply Forall_cons. split; [|apply Forall_cons; split; [|by apply Forall_nil]].
      * split; [cbn; lia|]. intros x [= <-]. right. eexists. reflexivity.
      * split; [cbn; lia|]. intros x [= <-]. left. reflexivity.
    + exists neos. split; [exact Hload|exact Hlen].
  - destruct (proj2 one_entity_per_record Sample.cad_json)
      as (approaches & Hload & Hlen & _).
    + cbn. list_covers.
    + apply Forall_cons. split; [|apply Forall_cons; split; [|by apply Forall_nil]].
      * split; [cbn; lia|]. split.
        -- intros x [= <-]. right. eexists. reflexivity.
        -- intros x [= <-]. right. eexists. reflexivity.
      * split; [cbn; lia|]. split.
        -- intros x [= <-]. left. reflexivity.
        -- intros x [= <-]. right. eexists. reflexivity.
    + exists approaches. split; [exact Hload|exact Hlen].
Defined.

(** An approach linked to an object with no name and a number for its
    designation: the name is null and the designation is text. *)
Lemma json_name_null_designation_string_witness :
  NearEarthObject.name (NearEarthObject.mk (VInt 433) VNone nan false [])
  = VNone /\
  exists docs doc o,
    write_to_json [Cases.unnamed_linked] = Ok (JArray docs) /\
    docs !! 0 = Some doc /\
    member "neo" doc = Some o /\
    member "designation" o = Some (JStr "433") /\
    member "name" o = Some JNull.
Proof.
  split; [reflexivity|].
  destruct (json_name_null_designation_string [Cases.unnamed_linked])
    as (docs & Hw & _ & Hpos).
  - apply Forall_cons. split; [by eexists|by apply Forall_nil].
  - destruct (Hpos 0 Cases.unnamed_linked eq_refl)
      as (n & doc & o & Hn & Hdoc & Hneo & Hdes & _ & Hnull).
    injection Hn as <-.
    exists docs, doc, o. split; [exact Hw|]. split; [exact Hdoc|].
    split; [exact Hneo|]. split; [exact Hdes|].
    exact (proj1 (Hnull eq_refl)).
Defined.

End Samples.

(** * Further properties of the code *)

(** ** The constructors: when they return and what they keep *)

Section ConstructorBehaviour.

Context {FT : FloatText} {CF : CalendarFormat}.

Lemma getkey_Ok_inv {A} (d : gmap string A) (k : string) (v : A) :
  getkey d k = Ok v -> d !! k = Some v.
Proof. unfold getkey. destruct (d !! k); [by intros [= ->]|done]. Qed.

Lemma falsy_or_empty (v : value) : py_not v || eq_str v "" = py_not v.
Proof.
  destruct (py_not v) eqn:Hv; [done|]. cbn.
  destruct (eq_str v "") eqn:Hv'; [|done].
  apply eq_str_empty_not in Hv'. congruence.
Qed.

(** What a returned object was made from. *)
Lemma NearEarthObject_init_Ok_inv (info : gmap string value)
  (neo : NearEarthObject.t) :
  NearEarthObject.init info = Ok neo ->
  exists d n x h f,
    info !! "designation" = Some d /\ info !! "name" = Some n /\
    info !! "diameter" = Some x /\ info !! "hazardous" = Some h /\
    (if py_not x then Ok nan else py_float x) = Ok f /\
    neo = NearEarthObject.mk (if py_not d then VStr "" else d)
            (if py_not n then VNone else n) f
            (if eq_str h "Y" then true else false) [].
Proof.
  unfold NearEarthObject.init.
  destruct (getkey info "designation") as [d|] eqn:Hd; cbn; [|done].
  destruct (getkey info "name") as [n|] eqn:Hn; cbn; [|done].
  destruct (getkey info "diameter") as [x|] eqn:Hx; cbn; [|done].
  rewrite !falsy_or_empty.
  destruct (if py_not x then Ok nan else py_float x) as [f|] eqn:Hf;
    cbn; [|done].
  destruct (getkey info "hazardous") as [h|] eqn:Hh; cbn; [|done].
  intros [= <-]. exists d, n, x, h, f.
  by repeat split; try apply getkey_Ok_inv.
Qed.

(** X1.  The constructor of an object returns exactly when the four keyword
    arguments are given and the diameter is missing or converts; a text
    diameter that does not convert makes it raise [ValueError]. *)
Theorem neo_constructor_returns_iff (info : gmap string value) :
  ((exists neo, NearEarthObject.init info = Ok neo) <->
   (exists d n x h,
      info !! "designation" = Some d /\ info !! "name" = Some n /\
      info !! "diameter" = Some x /\ info !! "hazardous" = Some h /\
      convertible x)) /\
  (forall d n s,
     info !! "designation" = Some d -> info !! "name" = Some n ->
     info !! "diameter" = Some (VStr s) -> s <> "" ->
     float_of_str s = None ->
     NearEarthObject.init info = Raise ValueError).
Proof.
  split; [split|].
  - intros [neo Hinit].
    destruct (NearEarthObject_init_Ok_inv info neo Hinit)
      as (d & n & x & h & f & Hd & Hn & Hx & Hh & Hf & _).
    exists d, n, x, h. repeat split; try done.
    unfold convertible. destruct (py_not x); [by left|right; eauto].
  - intros (d & n & x & h & Hd & Hn & Hx & Hh & Hconv).
    destruct (NearEarthObject_init_Ok info d n x h Hd Hn Hx Hh Hconv)
      as (f & _ & Hinit). eauto.
  - intros d n s Hd Hn Hx Hs Hconv. unfold NearEarthObject.init.
    rewrite (getkey_Some _ _ _ Hd), (getkey_Some _ _ _ Hn),
      (getkey_Some _ _ _ Hx). cbn.
    apply String.eqb_neq in Hs. rewrite Hs. cbn. by rewrite Hconv.
Qed.

(** X2.  A diameter of zero given as a number is taken as missing: the
    object gets not-a-number, not zero. *)
Theorem zero_diameter_becomes_nan (info : gmap string value)
  (d n x h : value) :
  info !! "designation" = Some d -> info !! "name" = Some n ->
  info !! "diameter" = Some x -> info !! "hazardous" = Some h ->
  x = VInt 0 \/ x = VBool false
  \/ (exists f, x = VFloat f /\ PrimFloat.eqb f zero = true) ->
  exists neo,
    NearEarthObject.init info = Ok neo /\
    NearEarthObject.diameter neo = nan /\
    PrimFloat.eqb (NearEarthObject.diameter neo) zero = false.
Proof.
  intros Hd Hn Hx Hh Hzero.
  assert (Hnot : py_not x = true).
  { destruct Hzero as [-> | [-> | (f & -> & Hf)]]; done. }
  destruct (NearEarthObject_init_Ok info d n x h Hd Hn Hx Hh (or_introl Hnot))
    as (f & Hf & Hinit).
  rewrite Hnot in Hf. injection Hf as <-.
  eexists. split; [exact Hinit|]. by split.
Qed.

(** X3.  What every constructed object satisfies: it has no approaches yet,
    its name is null or a value that counts as true, never the empty
    string, and its designation is the empty string or a value that counts
    as true, never null. *)
Theorem constructed_object_invariants (info : gmap string value)
  (neo : NearEarthObject.t) :
  NearEarthObject.init info = Ok neo ->
  NearEarthObject.approaches neo = [] /\
  (NearEarthObject.name neo = VNone
   \/ py_not (NearEarthObject.name neo) = false) /\
  NearEarthObject.name neo <> VStr "" /\
  (NearEarthObject.designation neo = VStr ""
   \/ py_not (NearEarthObject.designation neo) = false) /\
  NearEarthObject.designation neo <> VNone.
Proof.
  intros Hinit.
  destruct (NearEarthObject_init_Ok_inv info neo Hinit)
    as (d & n & x & h & f & _ & _ & _ & _ & _ & ->). cbn.
  split; [done|].
  destruct (py_not n) eqn:Hn, (py_not d) eqn:Hd;
    repeat split; auto; try done; by intros ->.
Qed.

(** X4.  What a constructed approach holds: no object yet, the empty string
    for a missing designation, no time for a missing time, whatever the
    calendar format, and zero for a missing distance or velocity; a
    distance or velocity that is given is the converted number. *)
Theorem approach_defaults (info : gmap string value) (a : CloseApproach.t)
  (d c x v : value) :
  info !! "designation" = Some d -> info !! "time" = Some c ->
  info !! "distance" = Some x -> info !! "velocity" = Some v ->
  CloseApproach.init info = Ok a ->
  CloseApproach.neo a = None /\
  CloseApproach._designation a = (if py_not d then VStr "" else d) /\
  (py_not c = true -> CloseApproach.time a = None) /\
  (if py_not x then Ok zero else py_float x) = Ok (CloseApproach.distance a)
  /\
  (if py_not v then Ok zero else py_float v) = Ok (CloseApproach.velocity a).
Proof.
  intros Hd Hc Hx Hv. unfold CloseApproach.init.
  rewrite (getkey_Some _ _ _ Hd), (getkey_Some _ _ _ Hc),
    (getkey_Some _ _ _ Hx), (getkey_Some _ _ _ Hv). cbn.
  destruct (if py_not x then Ok zero else py_float x) as [fx|]; cbn; [|done].
  destruct (if py_not v then Ok zero else py_float v) as [fv|]; cbn; [|done].
  intros [= <-]. cbn. repeat split. by intros ->.
Qed.

End ConstructorBehaviour.

(** ** The loaders: columns by name, and what can go wrong *)

Section MapM.

Context {A B : Type} (f : A -> result B).

Lemma mapM_Ok_inv (l : list A) (k : list B) :
  mapM f l = Ok k -> Forall2 (fun x y => f x = Ok y) l k.
Proof.
  revert k. induction l as [|x l IH]; intros k; cbn.
  - intros [= <-]. constructor.
  - destruct (f x) as [y|e] eqn:Hx; cbn; [|done].
    destruct (mapM f l) as [k'|e] eqn:Hl; cbn; [|done].
    intros [= <-]. constructor; auto.
Qed.

Lemma mapM_Raise_inv (l : list A) (e : exn) :
  mapM f l = Raise e -> exists x, x ∈ l /\ f x = Raise e.
Proof.
  induction l as [|x l IH]; cbn; [done|].
  destruct (f x) as [y|e'] eqn:Hx; cbn.
  - destruct (mapM f l) as [k|e'] eqn:Hl; cbn; [done|].
    intros [= ->]. destruct (IH eq_refl) as (z & Hz & Hfz).
    exists z. split; [by right|done].
  - intros [= ->]. exists x. split; [by left|done].
Qed.

(** The first call that raises ends the loop with its exception. *)
Lemma mapM_first_Raise (before after : list A) (x : A) (e : exn) :
  Forall (fun z => exists y, f z = Ok y) before -> f x = Raise e ->
  mapM f (before ++ x :: after)%list = Raise e.
Proof.
  intros Hbefore Hx.
  induction Hbefore as [|z before [y Hy] _ IH]; cbn.
  - by rewrite Hx.
  - rewrite Hy. cbn. by rewrite IH.
Qed.

Lemma mapM_ext_in (g : A -> result B) (l : list A) :
  (forall x, x ∈ l -> f x = g x) -> mapM f l = mapM g l.
Proof.
  induction l as [|x l IH]; intros Heq; cbn; [done|].
  rewrite (Heq x) by (by left). rewrite IH; [done|].
  intros z Hz. apply Heq. by right.
Qed.

End MapM.

Lemma mapM_map {A B C} (g : A -> B) (f : B -> result C) (l : list A) :
  mapM f (map g l) = mapM (fun x => f (g x)) l.
Proof. induction l as [|x l IH]; cbn; [done|]. by rewrite IH. Qed.

Section Dictionary.

Context {A : Type} (eqb : A -> string -> bool).

Lemma index_Ok_lookup (l : list A) (x : string) (i : nat) :
  index eqb l x = Ok i -> exists y, l !! i = Some y /\ eqb y x = true.
Proof.
  revert i. induction l as [|y l IH]; intros i; cbn; [done|].
  destruct (eqb y x) eqn:Hy; [intros [= <-]; by exists y|].
  destruct (index eqb l x) as [j|e]; cbn; [|done].
  intros [= <-]. by apply IH.
Qed.

(** A dictionary that the comprehension returned sends each name to its
    position. *)
Lemma index_dict_Ok_inv (l : list A) (names : list string)
  (acc m : gmap string nat) :
  index_dict eqb l names acc = Ok m ->
  forall f, f ∈ names -> exists i, m !! f = Some i /\ index eqb l f = Ok i.
Proof.
  intros Hm.
  assert (Hall : Forall (fun f => Exists (fun y => eqb y f = true) l) names).
  { revert acc Hm. induction names as [|g names IH]; intros acc; cbn;
      [constructor|].
    destruct (index eqb l g) as [i|e] eqn:Hi; cbn; [|done].
    intros Hm. constructor; [|by eapply IH].
    destruct (index_Ok_lookup l g i Hi) as (y & Hy & Hyg).
    apply Exists_exists. exists y. split; [|done].
    by eapply list_elem_of_lookup_2. }
  destruct (index_dict_Ok eqb l names acc Hall) as (m' & Hm' & Hlook).
  by assert (m = m') as -> by congruence.
Qed.

Lemma index_dict_only_ValueError (l : list A) (names : list string)
  (acc : gmap string nat) (e : exn) :
  index_dict eqb l names acc = Raise e -> e = ValueError.
Proof.
  revert acc. induction names as [|f names IH]; intros acc; cbn; [done|].
  destruct (index eqb l f) as [i|e'] eqn:Hi; cbn.
  - apply IH.
  - intros [= <-]. by eapply index_Raise.
Qed.

(** In the row of a record, the cell under a name of the header is the
    record's value under that name. *)
Lemma cell_rows_of {B} (inj : string -> A) (l : list A) (rec : A -> B)
  (f : string) :
  (forall y, eqb y f = true <-> y = inj f) -> inj f ∈ l ->
  cell eqb l (map rec l) f = Some (rec (inj f)).
Proof.
  intros Hspec Hin. unfold cell.
  destruct (index_present eqb l f) as (i & y & Hi & Hy & Hyf).
  { apply Exists_exists. exists (inj f). split; [done|]. by apply Hspec. }
  rewrite Hi. apply Hspec in Hyf as ->.
  change (map rec l) with (rec <$> l). by rewrite list_lookup_fmap, Hy.
Qed.

(** A row that is as long as the header has a cell under every name that the
    header has. *)
Lemma cell_aligned {B} (l : list A) (row : list B) (f : string) (i : nat) :
  index eqb l f = Ok i -> length l <= length row ->
  exists c, cell eqb l row f = Some c.
Proof.
  intros Hi Hlen. apply index_lt in Hi as Hlt. unfold cell. rewrite Hi.
  apply lookup_lt_is_Some_2. lia.
Qed.

End Dictionary.

Section LoaderBehaviour.

Context {FT : FloatText} {CF : CalendarFormat}.

Lemma load_neos_eq (fields : list string) (rows : list (list string)) :
  load_neos (fields :: rows)
  = (m ← index_dict String.eqb fields ["pdes"; "name"; "pha"; "diameter"] ∅;
     mapM (neo_call m) rows).
Proof. reflexivity. Qed.

Lemma load_approaches_eq (jsonData : cad) :
  load_approaches jsonData
  = (m ← index_dict eq_str (fields jsonData)
           ["des"; "cd"; "dist"; "v_rel"] ∅;
     mapM (approach_call m) (data jsonData)).
Proof. reflexivity. Qed.

Lemma getitem_cell {A B} (eqb : A -> string -> bool) (l : list A)
  (row : list B) (f : string) (i : nat) :
  index eqb l f = Ok i ->
  getitem row i = match cell eqb l row f with
                  | Some c => Ok c
                  | None => Raise IndexError
                  end.
Proof. intros Hi. unfold cell, getitem. by rewrite Hi. Qed.

(** The body of the loop reads the four cells by name. *)
Lemma neo_call_cells (fields : list string) (m : gmap string nat)
  (row : list string) :
  (forall f, f ∈ ["pdes"; "name"; "pha"; "diameter"] ->
             exists i, m !! f = Some i /\ index String.eqb fields f = Ok i) ->
  neo_call m row = neo_of_cells fields row.
Proof.
  intros Hlook. unfold neo_call, neo_of_cells.
  destruct (Hlook "pdes") as (i1 & Hm1 & Hi1); [list_has|].
  destruct (Hlook "name") as (i2 & Hm2 & Hi2); [list_has|].
  destruct (Hlook "diameter") as (i3 & Hm3 & Hi3); [list_has|].
  destruct (Hlook "pha") as (i4 & Hm4 & Hi4); [list_has|].
  rewrite (getkey_Some _ _ _ Hm1), (getkey_Some _ _ _ Hm2),
    (getkey_Some _ _ _ Hm3), (getkey_Some _ _ _ Hm4). cbn.
  rewrite (getitem_cell _ _ row _ _ Hi1), (getitem_cell _ _ row _ _ Hi2),
    (getitem_cell _ _ row _ _ Hi3), (getitem_cell _ _ row _ _ Hi4).
  destruct (cell String.eqb fields row "pdes"); cbn; [|done].
  destruct (cell String.eqb fields row "name"); cbn; [|done].
  destruct (cell String.eqb fields row "diameter"); cbn; [|done].
  by destruct (cell String.eqb fields row "pha").
Qed.

Lemma approach_call_cells (fields : list value) (m : gmap string nat)
  (item : list value) :
  (forall f, f ∈ ["des"; "cd"; "dist"; "v_rel"] ->
             exists i, m !! f = Some i /\ index eq_str fields f = Ok i) ->
  approach_call m item = approach_of_cells fields item.
Proof.
  intros Hlook. unfold approach_call, approach_of_cells.
  destruct (Hlook "des") as (i1 & Hm1 & Hi1); [list_has|].
  destruct (Hlook "cd") as (i2 & Hm2 & Hi2); [list_has|].
  destruct (Hlook "dist") as (i3 & Hm3 & Hi3); [list_has|].
  destruct (Hlook "v_rel") as (i4 & Hm4 & Hi4); [list_has|].
  rewrite (getkey_Some _ _ _ Hm1), (getkey_Some _ _ _ Hm2),
    (getkey_Some _ _ _ Hm3), (getkey_Some _ _ _ Hm4). cbn.
  rewrite (getitem_cell _ _ item _ _ Hi1), (getitem_cell _ _ item _ _ Hi2),
    (getitem_cell _ _ item _ _ Hi3), (getitem_cell _ _ item _ _ Hi4).
  destruct (cell eq_str fields item "des"); cbn; [|done].
  destruct (cell eq_str fields item "cd"); cbn; [|done].
  destruct (cell eq_str fields item "dist"); cbn; [|done].
  by destruct (cell eq_str fields item "v_rel").
Qed.

(** With the four names in the header, loading is the loop over the rows,
    each told by its cells. *)
Lemma load_neos_cells (fields : list string) (rows : list (list string)) :
  (forall f, f ∈ ["pdes"; "name"; "pha"; "diameter"] -> f ∈ fields) ->
  load_neos (fields :: rows) = mapM (neo_of_cells fields) rows.
Proof.
  intros Hhdr. rewrite load_neos_eq.
  destruct (index_dict_Ok String.eqb fields
              ["pdes"; "name"; "pha"; "diameter"] ∅) as (m & Hm & Hlook).
  { apply Forall_forall. intros f Hf. apply Exists_exists.
    exists f. split; [by apply Hhdr|apply String.eqb_refl]. }
  rewrite Hm. cbn. apply mapM_ext_in. intros row _.
  by apply neo_call_cells.
Qed.

Lemma load_approaches_cells (jsonData : cad) :
  (forall f, f ∈ ["des"; "cd"; "dist"; "v_rel"] ->
             VStr f ∈ fields jsonData) ->
  load_approaches jsonData
  = mapM (approach_of_cells (fields jsonData)) (data jsonData).
Proof.
  intros Hhdr. rewrite load_approaches_eq.
  destruct (index_dict_Ok eq_str (fields jsonData)
              ["des"; "cd"; "dist"; "v_rel"] ∅) as (m & Hm & Hlook).
  { apply Forall_forall. intros f Hf. apply Exists_exists.
    exists (VStr f). split; [by apply Hhdr|by apply eq_str_true]. }
  rewrite Hm. cbn. apply mapM_ext_in. intros item _.
  by apply approach_call_cells.
Qed.

Lemma String_eqb_spec (f y : string) : String.eqb y f = true <-> y = f.
Proof. apply String.eqb_eq. Qed.

(** X5.  [load_neos] finds its four columns by name: for records known by
    column name, the objects are those constructed from the values under
    the four names, so two files of the same records give the same result
    whatever the order of their columns and whatever other columns they
    have. *)
Theorem load_neos_by_column_name (recs : list (string -> string)) :
  forall fields : list string,
    (forall f, f ∈ ["pdes"; "name"; "pha"; "diameter"] -> f ∈ fields) ->
    load_neos (fields :: rows_of fields recs)
    = mapM (fun rec =>
              NearEarthObject.init
                (neo_info (VStr (rec "pdes")) (VStr (rec "name"))
                   (VStr (rec "diameter")) (VStr (rec "pha"))))
           recs.
Proof.
  intros fields Hhdr. rewrite (load_neos_cells _ _ Hhdr).
  unfold rows_of. rewrite mapM_map. apply mapM_ext_in. intros rec _.
  unfold neo_of_cells.
  rewrite !(cell_rows_of String.eqb (fun f => f))
    by (first [apply String_eqb_spec | apply Hhdr; list_has]).
  done.
Qed.

(** X6.  [load_approaches] finds its four fields by name in the same way:
    the approaches are those constructed from the values under [des], [cd],
    [dist] and [v_rel], wherever these stand in the field list. *)
Theorem load_approaches_by_field_name (recs : list (value -> value)) :
  forall fields : list value,
    (forall f, f ∈ ["des"; "cd"; "dist"; "v_rel"] -> VStr f ∈ fields) ->
    load_approaches (mkCad fields (rows_of fields recs))
    = mapM (fun rec =>
              CloseApproach.init
                (approach_info (rec (VStr "des")) (rec (VStr "cd"))
                   (rec (VStr "dist")) (rec (VStr "v_rel"))))
           recs.
Proof.
  intros fields Hhdr. rewrite load_approaches_cells by exact Hhdr. cbn.
  unfold rows_of. rewrite mapM_map. apply mapM_ext_in. intros rec _.
  unfold approach_of_cells.
  rewrite !(cell_rows_of eq_str VStr)
    by (first [intros y; apply eq_str_true | apply Hhdr; list_has]).
  done.
Qed.

End LoaderBehaviour.

Section LoaderErrors.

Context {FT : FloatText} {CF : CalendarFormat}.

(** The constructor, called on the text of four cells, can only fail on the
    diameter. *)
Lemma init_text_Raise (d n x h : string) (e : exn) :
  NearEarthObject.init (neo_info (VStr d) (VStr n) (VStr x) (VStr h))
  = Raise e -> e = ValueError.
Proof.
  destruct (neo_info_lookup (VStr d) (VStr n) (VStr x) (VStr h))
    as (Ld & Ln & Lx & Lh).
  unfold NearEarthObject.init.
  rewrite (getkey_Some _ _ _ Ld), (getkey_Some _ _ _ Ln),
    (getkey_Some _ _ _ Lx), (getkey_Some _ _ _ Lh). cbn.
  destruct (String.eqb x ""); cbn; [done|].
  destruct (float_of_str x); cbn; [done|]. by intros [= <-].
Qed.

Lemma neo_of_cells_Raise (fields row : list string) (e : exn) :
  neo_of_cells fields row = Raise e -> e = IndexError \/ e = ValueError.
Proof.
  unfold neo_of_cells.
  destruct (cell String.eqb fields row "pdes");
    [|intros [= <-]; by left].
  destruct (cell String.eqb fields row "name");
    [|intros [= <-]; by left].
  destruct (cell String.eqb fields row "diameter");
    [|intros [= <-]; by left].
  destruct (cell String.eqb fields row "pha");
    [|intros [= <-]; by left].
  intros Hinit. right. by eapply init_text_Raise.
Qed.

Lemma neo_of_cells_Ok (fields row : list string) (neo : NearEarthObject.t) :
  neo_of_cells fields row = Ok neo -> neo_of_row fields row neo.
Proof.
  unfold neo_of_cells, neo_of_row.
  destruct (cell String.eqb fields row "pdes") as [d|]; [|done].
  destruct (cell String.eqb fields row "name") as [n|]; [|done].
  destruct (cell String.eqb fields row "diameter") as [x|]; [|done].
  destruct (cell String.eqb fields row "pha") as [h|]; [|done].
  intros Hinit. by exists d, n, x, h.
Qed.

Lemma neo_of_cells_missing (fields row : list string) (f : string) :
  f ∈ ["pdes"; "name"; "pha"; "diameter"] ->
  cell String.eqb fields row f = None ->
  neo_of_cells fields row = Raise IndexError.
Proof.
  intros Hf Hnone. unfold neo_of_cells.
  repeat (apply elem_of_cons in Hf as [->|Hf];
          [rewrite Hnone;
           repeat match goal with
                  | |- context [match ?c with _ => _ end] => destruct c
                  end; done|]).
  by apply elem_of_nil in Hf.
Qed.

Lemma header_index (fields : list string) (f : string) :
  f ∈ fields -> exists i, index String.eqb fields f = Ok i.
Proof.
  intros Hf. destruct (index_present String.eqb fields f) as (i & _ & Hi & _).
  { apply Exists_exists. exists f. split; [done|apply String.eqb_refl]. }
  eauto.
Qed.

Lemma neo_of_cells_wf (fields row : list string) :
  (forall f, f ∈ ["pdes"; "name"; "pha"; "diameter"] -> f ∈ fields) ->
  row_wf fields row -> exists neo, neo_of_cells fields row = Ok neo.
Proof.
  intros Hhdr [Hlen Hdia]. unfold neo_of_cells.
  destruct (header_index fields "pdes") as [i1 Hi1]; [apply Hhdr; list_has|].
  destruct (header_index fields "name") as [i2 Hi2]; [apply Hhdr; list_has|].
  destruct (header_index fields "diameter") as [i3 Hi3];
    [apply Hhdr; list_has|].
  destruct (header_index fields "pha") as [i4 Hi4]; [apply Hhdr; list_has|].
  destruct (cell_aligned _ _ row _ _ Hi1 Hlen) as [d ->].
  destruct (cell_aligned _ _ row _ _ Hi2 Hlen) as [n ->].
  destruct (cell_aligned _ _ row _ _ Hi3 Hlen) as [x Hx].
  destruct (cell_aligned _ _ row _ _ Hi4 Hlen) as [h ->].
  rewrite Hx.
  destruct (neo_info_lookup (VStr d) (VStr n) (VStr x) (VStr h))
    as (Ld & Ln & Lx & Lh).
  destruct (NearEarthObject_init_Ok _ _ _ _ _ Ld Ln Lx Lh (Hdia x Hx))
    as (f & _ & Hinit). eauto.
Qed.

(** X7.  On the rows that the reader yields, the statements of [load_neos]
    raise nothing but [StopIteration], on a file with no header,
    [ValueError], on a header without one of the names or a diameter that is
    not a number, and [IndexError], on a row without one of the cells;
    opening and reading the file are not part of this. *)
Theorem load_neos_only_raises (csv : list (list string)) (e : exn) :
  load_neos csv = Raise e ->
  e = StopIteration \/ e = ValueError \/ e = IndexError.
Proof.
  destruct csv as [|fields rows]; [intros [= <-]; by left|].
  rewrite load_neos_eq.
  destruct (index_dict String.eqb fields
              ["pdes"; "name"; "pha"; "diameter"] ∅) as [m|e'] eqn:Hm; cbn.
  - intros (row & _ & Hrow)%mapM_Raise_inv.
    rewrite (neo_call_cells fields) in Hrow
      by (by eapply index_dict_Ok_inv).
    apply neo_of_cells_Raise in Hrow as [-> | ->]; auto.
  - intros [= <-]. right. left. by eapply index_dict_only_ValueError.
Qed.

(** X8.  Whenever [load_neos] returns, the header had the four names and
    the collection has one object for each row, at the row's position,
    constructed from the row's four cells: no row is skipped or merged. *)
Theorem load_neos_returns_row_for_row (fields : list string)
  (rows : list (list string)) (neos : list NearEarthObject.t) :
  load_neos (fields :: rows) = Ok neos ->
  (forall f, f ∈ ["pdes"; "name"; "pha"; "diameter"] -> f ∈ fields) /\
  length neos = length rows /\
  forall i row, rows !! i = Some row ->
    exists neo, neos !! i = Some neo /\ neo_of_row fields row neo.
Proof.
  rewrite load_neos_eq.
  destruct (index_dict String.eqb fields
              ["pdes"; "name"; "pha"; "diameter"] ∅) as [m|e'] eqn:Hm;
    cbn; [|done].
  pose proof (index_dict_Ok_inv _ _ _ _ _ Hm) as Hlook.
  intros Hall%mapM_Ok_inv. split.
  - intros f Hf. destruct (Hlook f Hf) as (i & _ & Hi).
    destruct (index_Ok_lookup _ _ _ _ Hi) as (y & Hy & ->%String.eqb_eq).
    by eapply list_elem_of_lookup_2.
  - apply Forall2_positions. eapply Forall2_impl; [exact Hall|].
    intros row neo Hcall. cbn in Hcall.
    rewrite (neo_call_cells fields) in Hcall by done.
    by apply neo_of_cells_Ok.
Qed.

(** X9.  A row that lacks a cell under one of the four names, as the empty
    row of a blank line does, makes [load_neos] raise [IndexError], and the
    objects of the rows before it are not returned. *)
Theorem short_row_raises_IndexError (fields : list string)
  (before after : list (list string)) (row : list string) (f : string) :
  (forall g, g ∈ ["pdes"; "name"; "pha"; "diameter"] -> g ∈ fields) ->
  Forall (row_wf fields) before ->
  f ∈ ["pdes"; "name"; "pha"; "diameter"] ->
  cell String.eqb fields row f = None ->
  load_neos (fields :: (before ++ row :: after)%list) = Raise IndexError.
Proof.
  intros Hhdr Hbefore Hf Hnone. rewrite (load_neos_cells _ _ Hhdr).
  apply mapM_first_Raise.
  - eapply Forall_impl; [exact Hbefore|]. intros r Hr.
    by apply neo_of_cells_wf.
  - by eapply neo_of_cells_missing.
Qed.

(** X10.  A diameter that is not empty and is not a number makes
    [load_neos] raise [ValueError], and the objects of the rows before it
    are not returned. *)
Theorem bad_diameter_raises_ValueError (fields : list string)
  (before after : list (list string)) (row : list string) (x : string) :
  (forall g, g ∈ ["pdes"; "name"; "pha"; "diameter"] -> g ∈ fields) ->
  Forall (row_wf fields) before ->
  length fields <= length row ->
  cell String.eqb fields row "diameter" = Some x ->
  x <> "" -> float_of_str x = None ->
  load_neos (fields :: (before ++ row :: after)%list) = Raise ValueError.
Proof.
  intros Hhdr Hbefore Hlen Hx Hne Hbad. rewrite (load_neos_cells _ _ Hhdr).
  apply mapM_first_Raise.
  - eapply Forall_impl; [exact Hbefore|]. intros r Hr.
    by apply neo_of_cells_wf.
  - unfold neo_of_cells. rewrite Hx.
    destruct (header_index fields "pdes") as [i1 Hi1];
      [apply Hhdr; list_has|].
    destruct (header_index fields "name") as [i2 Hi2];
      [apply Hhdr; list_has|].
    destruct (header_index fields "pha") as [i4 Hi4];
      [apply Hhdr; list_has|].
    destruct (cell_aligned _ _ row _ _ Hi1 Hlen) as [d ->].
    destruct (cell_aligned _ _ row _ _ Hi2 Hlen) as [n ->].
    destruct (cell_aligned _ _ row _ _ Hi4 Hlen) as [h ->].
    destruct (neo_info_lookup (VStr d) (VStr n) (VStr x) (VStr h))
      as (Ld & Ln & Lx & Lh).
    unfold NearEarthObject.init.
    rewrite (getkey_Some _ _ _ Ld), (getkey_Some _ _ _ Ln),
      (getkey_Some _ _ _ Lx). cbn.
    apply String.eqb_neq in Hne. rewrite Hne. cbn. by rewrite Hbad.
Qed.

End LoaderErrors.

(** ** The writers: what reaches the file *)

Section WriterBehaviour.

Context {FT : FloatText}.

Local Open Scope list_scope.

(** What the loop appends does not depend on what the file holds. *)
Lemma write_rows_out (results : list CloseApproach.t)
  (out : list (list string)) :
  write_rows results out
  = (out ++ fst (write_rows results []), snd (write_rows results [])).
Proof.
  revert out. induction results as [|a results IH]; intros out; cbn.
  - by rewrite app_nil_r.
  - destruct (CloseApproach.neo a) as [n|]; cbn; [|by rewrite app_nil_r].
    rewrite (IH (out ++ [csv_row a n])), (IH [csv_row a n]). cbn.
    by rewrite <- app_assoc.
Qed.

Lemma write_rows_app (results more : list CloseApproach.t)
  (out : list (list string)) :
  Forall (fun a => is_Some (CloseApproach.neo a)) results ->
  write_rows (results ++ more) out
  = write_rows more (fst (write_rows results out)).
Proof.
  intros Hall. revert out.
  induction Hall as [|a results [n Hn] _ IH]; intros out; cbn; [done|].
  rewrite Hn. apply IH.
Qed.

Lemma collect_app (results more : list CloseApproach.t)
  (acc docs : list json) :
  collect results acc = Ok docs ->
  collect (results ++ more) acc = collect more docs.
Proof.
  revert acc. induction results as [|a results IH]; intros acc; cbn.
  - by intros [= ->].
  - destruct (CloseApproach.neo a) as [n|]; [apply IH|done].
Qed.

Lemma collect_acc (results : list CloseApproach.t) (acc : list json) :
  collect results acc
  = (docs ← collect results []; Ok (acc ++ docs)).
Proof.
  revert acc. induction results as [|a results IH]; intros acc; cbn.
  - by rewrite app_nil_r.
  - destruct (CloseApproach.neo a) as [n|]; cbn; [|done].
    rewrite (IH (acc ++ [ApproachDict a n])), (IH [ApproachDict a n]).
    destruct (collect results []) as [docs|]; cbn; [|done].
    by rewrite <- app_assoc.
Qed.

Lemma collect_unlinked (before after : list CloseApproach.t)
  (a : CloseApproach.t) (acc : list json) :
  Forall (fun b => is_Some (CloseApproach.neo b)) before ->
  CloseApproach.neo a = None ->
  collect (before ++ a :: after) acc = Raise AttributeError.
Proof.
  intros Hall Ha. revert acc.
  induction Hall as [|b before [n Hn] _ IH]; intros acc; cbn.
  - by rewrite Ha.
  - rewrite Hn. apply IH.
Qed.

(** Results are all linked, or they have a first approach with no object. *)
Lemma linked_or_first_unlinked (results : list CloseApproach.t) :
  Forall (fun a => is_Some (CloseApproach.neo a)) results \/
  exists before a after,
    results = before ++ a :: after /\
    Forall (fun b => is_Some (CloseApproach.neo b)) before /\
    CloseApproach.neo a = None.
Proof.
  induction results as [|a results [IH | (before & b & after & -> & Hb & Hn)]].
  - left. constructor.
  - destruct (CloseApproach.neo a) as [n|] eqn:Ha.
    + left. constructor; [by exists n|done].
    + right. exists [], a, results. by repeat split.
  - destruct (CloseApproach.neo a) as [n|] eqn:Ha.
    + right. exists (a :: before), b, after.
      repeat split; [|done]. constructor; [by exists n|done].
    + right. exists [], a, (before ++ b :: after). by repeat split.
Qed.

Lemma unlinked_not_all (before after : list CloseApproach.t)
  (a : CloseApproach.t) :
  CloseApproach.neo a = None ->
  ~ Forall (fun b => is_Some (CloseApproach.neo b)) (before ++ a :: after).
Proof.
  intros Ha Hall. apply Forall_app in Hall as [_ Hall].
  apply Forall_cons in Hall as [[n Hn] _]. congruence.
Qed.

(** X11.  The loop of [write_to_csv] runs to its end exactly when every
    approach has an object, and when it stops the exception is
    [AttributeError]; [write_to_json] returns a document only for results
    in which every approach has an object. *)
Theorem writers_need_linked_results (results : list CloseApproach.t) :
  (snd (write_to_csv results) = Ok tt <->
   Forall (fun a => is_Some (CloseApproach.neo a)) results) /\
  (forall e, snd (write_to_csv results) = Raise e -> e = AttributeError) /\
  (forall doc, write_to_json results = Ok doc ->
     Forall (fun a => is_Some (CloseApproach.neo a)) results).
Proof.
  destruct (linked_or_first_unlinked results)
    as [Hall | (before & a & after & -> & Hbefore & Ha)].
  - destruct (write_rows_linked results [fieldnames] Hall) as (rows & Hw & _).
    unfold write_to_csv. rewrite Hw. cbn.
    split; [done|]. split; [done|]. by intros _ _.
  - pose proof (unlinked_not_all before after a Ha) as Hnot.
    destruct (write_rows_unlinked before after a [fieldnames] Hbefore Ha)
      as (rows & Hw & _).
    assert (Hj : write_to_json (before ++ a :: after) = Raise AttributeError).
    { unfold write_to_json. by rewrite collect_unlinked. }
    unfold write_to_csv. rewrite Hw, Hj. cbn.
    split; [split; [done|by intros ?]|].
    split; [by intros e [= <-]|done].
Qed.

(** X12.  At the first approach with no object [write_to_csv] stops: the
    file has the header and the rows of the approaches before it, nothing
    of the approaches after it, and the call raises; [write_to_json] raises
    too and dumps nothing. *)
Theorem unlinked_approach_stops_writing (before after : list CloseApproach.t)
  (a : CloseApproach.t) :
  Forall (fun b => is_Some (CloseApproach.neo b)) before ->
  CloseApproach.neo a = None ->
  write_to_csv (before ++ a :: after)
  = (fst (write_to_csv before), Raise AttributeError) /\
  snd (write_to_csv before) = Ok tt /\
  length (fst (write_to_csv before)) = S (length before) /\
  write_to_json (before ++ a :: after) = Raise AttributeError.
Proof.
  intros Hbefore Ha. unfold write_to_csv.
  destruct (write_rows_linked before [fieldnames] Hbefore)
    as (rows & Hw & Hrows).
  rewrite (write_rows_app before (a :: after)) by done.
  rewrite Hw. cbn. rewrite Ha.
  split; [done|]. split; [done|]. split.
  - f_equal. symmetry. by eapply Forall2_length.
  - unfold write_to_json. by rewrite collect_unlinked.
Qed.

(** X13.  Every record that [write_to_csv] writes, the header and each row,
    has seven fields, whether the call returns or raises. *)
Theorem csv_records_have_seven_fields (results : list CloseApproach.t) :
  Forall (fun record => length record = 7) (fst (write_to_csv results)).
Proof.
  unfold write_to_csv.
  assert (Hgen : forall out, Forall (fun r => length r = 7) out ->
            Forall (fun r => length r = 7) (fst (write_rows results out))).
  { induction results as [|a results IH]; intros out Hout; cbn; [done|].
    destruct (CloseApproach.neo a) as [n|]; [|done].
    apply IH, Forall_app. split; [done|]. by constructor. }
  apply Hgen. by constructor.
Qed.

(** X15.  Writing results and then more results: when the first are all
    linked, the file of the whole sequence is the file of the first followed
    by the rows of the rest, and the JSON document of the whole is the two
    documents joined. *)
Theorem writing_appended_results (results more : list CloseApproach.t) :
  Forall (fun a => is_Some (CloseApproach.neo a)) results ->
  fst (write_to_csv (results ++ more))
  = fst (write_to_csv results) ++ tail (fst (write_to_csv more)) /\
  snd (write_to_csv (results ++ more)) = snd (write_to_csv more) /\
  forall docs1 docs2,
    write_to_json results = Ok (JArray docs1) ->
    write_to_json more = Ok (JArray docs2) ->
    write_to_json (results ++ more) = Ok (JArray (docs1 ++ docs2)).
Proof.
  intros Hall. unfold write_to_csv.
  rewrite (write_rows_app results more) by done.
  rewrite (write_rows_out more (fst _)), (write_rows_out more [fieldnames]).
  cbn. repeat split.
  unfold write_to_json. intros docs1 docs2 H1 H2.
  destruct (collect results []) as [d1|] eqn:Hc1; cbn in H1; [|done].
  destruct (collect more []) as [d2|] eqn:Hc2; cbn in H2; [|done].
  injection H1 as ->. injection H2 as ->.
  rewrite (collect_app _ _ _ _ Hc1), collect_acc, Hc2. done.
Qed.

End WriterBehaviour.

(** ** From the loaders to the writers *)

Section LoadThenWrite.

Context {FT : FloatText} {CF : CalendarFormat}.

Lemma approach_call_unlinked (m : gmap string nat) (item : list value)
  (a : CloseApproach.t) :
  approach_call m item = Ok a -> CloseApproach.neo a = None.
Proof.
  unfold approach_call.
  repeat match goal with
         | |- context [getkey ?d ?k] => destruct (getkey d k); cbn; [|done]
         | |- context [getitem ?l ?i] => destruct (getitem l i); cbn; [|done]
         end.
  apply CloseApproach_init_unlinked.
Qed.

(** X14.  The approaches that [load_approaches] returns have no object, so
    handing them to the writers as they are writes the header alone and
    raises [AttributeError], unless there is no approach at all. *)
Theorem loaded_approaches_are_unlinked (jsonData : cad)
  (approaches : list CloseApproach.t) :
  load_approaches jsonData = Ok approaches ->
  Forall (fun a => CloseApproach.neo a = None) approaches /\
  (approaches <> [] ->
   write_to_csv approaches = ([fieldnames], Raise AttributeError) /\
   write_to_json approaches = Raise AttributeError).
Proof.
  rewrite load_approaches_eq.
  destruct (index_dict eq_str (fields jsonData)
              ["des"; "cd"; "dist"; "v_rel"] ∅) as [m|]; cbn; [|done].
  intros Hall%mapM_Ok_inv.
  assert (Hnone : Forall (fun a => CloseApproach.neo a = None) approaches).
  { induction Hall as [|item a items approaches Ha _ IH]; constructor;
      [by eapply approach_call_unlinked|done]. }
  split; [done|]. intros Hne.
  destruct approaches as [|a rest]; [done|].
  apply Forall_cons in Hnone as [Ha _].
  unfold write_to_csv, write_to_json. cbn. by rewrite Ha.
Qed.

End LoadThenWrite.

Section LoadedObjects.

Context {FT : FloatText}.

(** X16.  Every object that [load_neos] returns has a text designation, a
    name that is null or a text that is not empty, and no approaches. *)
Theorem loaded_objects_shape (csv : list (list string))
  (neos : list NearEarthObject.t) :
  load_neos csv = Ok neos ->
  Forall (fun neo =>
            (exists d, NearEarthObject.designation neo = VStr d) /\
            (NearEarthObject.name neo = VNone
             \/ exists n, NearEarthObject.name neo = VStr n /\ n <> "") /\
            NearEarthObject.approaches neo = [])
         neos.
Proof.
  destruct csv as [|fields rows]; [done|]. rewrite load_neos_eq.
  destruct (index_dict String.eqb fields
              ["pdes"; "name"; "pha"; "diameter"] ∅) as [m|e'] eqn:Hm;
    cbn; [|done].
  pose proof (index_dict_Ok_inv _ _ _ _ _ Hm) as Hlook.
  intros Hall%mapM_Ok_inv.
  induction Hall as [|row neo rows neos Hcall _ IH]; constructor; [|done].
  rewrite (neo_call_cells fields) in Hcall by done.
  apply neo_of_cells_Ok in Hcall as (d & n & x & h & _ & _ & _ & _ & Hinit).
  destruct (NearEarthObject_init_Ok_inv _ _ Hinit)
    as (d' & n' & x' & h' & f & Hd & Hn & _ & _ & _ & ->).
  destruct (neo_info_lookup (VStr d) (VStr n) (VStr x) (VStr h))
    as (Ld & Ln & _ & _).
  rewrite Ld in Hd. rewrite Ln in Hn.
  injection Hd as <-. injection Hn as <-. cbn.
  split; [destruct (String.eqb d ""); eauto|]. split; [|done].
  destruct (String.eqb n "") eqn:Heq; [by left|].
  right. exists n. split; [done|]. by apply String.eqb_neq.
Qed.

End LoadedObjects.

(** * The further properties on the sample data *)

Section MoreSamples.

Local Existing Instance Sample.float_text.
Local Existing Instance Sample.calendar_format.

(** A diameter that is text and not a number. *)
Lemma neo_constructor_returns_iff_witness :
  NearEarthObject.init
    (neo_info (VStr "433") (VStr "Eros") (VStr "unknown") (VStr "N"))
  = Raise ValueError.
Proof.
  apply (proj2 (neo_constructor_returns_iff _) (VStr "433") (VStr "Eros")
           "unknown"); try reflexivity. discriminate.
Defined.

Lemma zero_diameter_becomes_nan_witness :
  exists neo,
    NearEarthObject.init Cases.zero_diameter_info = Ok neo /\
    NearEarthObject.diameter neo = nan.
Proof.
  destruct (zero_diameter_becomes_nan Cases.zero_diameter_info
              (VStr "433") (VStr "Eros") (VFloat 0) (VStr "N"))
    as (neo & Hinit & Hnan & _); try reflexivity.
  - right. right. exists 0%float. split; reflexivity.
  - exists neo. by split.
Defined.

Lemma constructed_object_invariants_witness :
  NearEarthObject.approaches Sample.eros = []
  /\ NearEarthObject.name Sample.eros <> VStr "".
Proof.
  destruct (constructed_object_invariants Sample.eros_info Sample.eros)
    as (Happ & _ & Hname & _); [reflexivity|]. by split.
Defined.

(** An approach with a number for its designation and nothing else. *)
Lemma approach_defaults_witness :
  exists a,
    CloseApproach.init Cases.bare_approach_info = Ok a /\
    CloseApproach.neo a = None /\
    CloseApproach._designation a = VInt 433 /\
    CloseApproach.time a = None.
Proof.
  eexists. split; [reflexivity|].
  destruct (approach_defaults Cases.bare_approach_info _
              (VInt 433) VNone (VStr "") VNone
              eq_refl eq_refl eq_refl eq_refl eq_refl)
    as (Hneo & Hd & Ht & _).
  split; [exact Hneo|]. split; [exact Hd|]. by apply Ht.
Defined.

(** The sample object file gives the same objects with its columns in
    another order and without the column that is not read. *)
Lemma load_neos_by_column_name_witness :
  load_neos Cases.neo_csv_reordered = load_neos Sample.neo_csv.
Proof.
  change Cases.neo_csv_reordered
    with (["diameter"; "pha"; "name"; "pdes"]
          :: rows_of ["diameter"; "pha"; "name"; "pdes"]
               [Cases.eros_record; Cases.aa_record]).
  change Sample.neo_csv
    with (["id"; "pdes"; "name"; "pha"; "diameter"]
          :: rows_of ["id"; "pdes"; "name"; "pha"; "diameter"]
               [Cases.eros_record; Cases.aa_record]).
  rewrite !load_neos_by_column_name; [reflexivity| |]; list_covers.
Defined.

Lemma load_approaches_by_field_name_witness :
  load_approaches Sample.cad_json
  = Ok [Sample.eros_approach; Sample.stray_approach].
Proof.
  change Sample.cad_json
    with (mkCad
            [VStr "des"; VStr "orbit_id"; VStr "cd"; VStr "dist";
             VStr "v_rel"]
            (rows_of [VStr "des"; VStr "orbit_id"; VStr "cd"; VStr "dist";
                      VStr "v_rel"]
               [Cases.eros_entry; Cases.stray_entry])).
  rewrite load_approaches_by_field_name; [reflexivity|]. list_covers.
Defined.

Lemma load_neos_only_raises_witness :
  load_neos Sample.neo_csv_no_pha = Raise ValueError /\
  (ValueError = StopIteration \/ ValueError = ValueError
   \/ ValueError = IndexError).
Proof.
  split; [reflexivity|].
  apply (load_neos_only_raises Sample.neo_csv_no_pha). reflexivity.
Defined.

Lemma load_neos_returns_row_for_row_witness :
  exists neos,
    load_neos Sample.neo_csv = Ok neos /\ length neos = 2.
Proof.
  exists [Sample.eros;
          NearEarthObject.mk (VStr "1999 AA") VNone nan true []].
  split; [reflexivity|].
  destruct (load_neos_returns_row_for_row
              ["id"; "pdes"; "name"; "pha"; "diameter"]
              (tail Sample.neo_csv)
              [Sample.eros;
               NearEarthObject.mk (VStr "1999 AA") VNone nan true []])
    as (_ & Hlen & _); [reflexivity|].
  exact Hlen.
Defined.

Lemma sample_row_wf :
  row_wf ["pdes"; "name"; "pha"; "diameter"] ["433"; "Eros"; "N"; "16.84"].
Proof.
  split; [cbn; lia|]. intros x [= <-]. right. eexists. reflexivity.
Defined.

(** A blank line after a good row. *)
Lemma short_row_raises_IndexError_witness :
  load_neos Cases.neo_csv_blank_line = Raise IndexError.
Proof.
  apply (short_row_raises_IndexError ["pdes"; "name"; "pha"; "diameter"]
           [["433"; "Eros"; "N"; "16.84"]] [["1999 AA"; ""; "Y"; ""]] []
           "pdes").
  - list_covers.
  - apply Forall_cons. split; [exact sample_row_wf|by apply Forall_nil].
  - list_has.
  - reflexivity.
Defined.

(** A diameter that reads [unknown] after a good row. *)
Lemma bad_diameter_raises_ValueError_witness :
  load_neos Cases.neo_csv_bad_diameter = Raise ValueError.
Proof.
  apply (bad_diameter_raises_ValueError ["pdes"; "name"; "pha"; "diameter"]
           [["433"; "Eros"; "N"; "16.84"]] []
           ["1999 AA"; ""; "Y"; "unknown"] "unknown").
  - list_covers.
  - apply Forall_cons. split; [exact sample_row_wf|by apply Forall_nil].
  - cbn. lia.
  - reflexivity.
  - discriminate.
  - reflexivity.
Defined.

Lemma eros_linked_is_linked :
  Forall (fun a => is_Some (CloseApproach.neo a)) [Sample.eros_linked].
Proof.
  apply Forall_cons. split; [by exists Sample.eros|by apply Forall_nil].
Defined.

(** A linked approach, an approach with no object, and a linked one. *)
Lemma unlinked_approach_stops_writing_witness :
  write_to_csv
    [Sample.eros_linked; Sample.eros_approach; Sample.eros_linked]
  = (fst (write_to_csv [Sample.eros_linked]), Raise AttributeError)
  /\ length (fst (write_to_csv [Sample.eros_linked])) = 2.
Proof.
  destruct (unlinked_approach_stops_writing [Sample.eros_linked]
              [Sample.eros_linked] Sample.eros_approach
              eros_linked_is_linked eq_refl) as (Hw & _ & Hlen & _).
  split; [exact Hw|exact Hlen].
Defined.

Lemma loaded_approaches_are_unlinked_witness :
  write_to_csv [Sample.eros_approach; Sample.stray_approach]
  = ([fieldnames], Raise AttributeError).
Proof.
  destruct (loaded_approaches_are_unlinked Sample.cad_json
              [Sample.eros_approach; Sample.stray_approach])
    as (_ & Hwrite); [reflexivity|].
  destruct Hwrite as [Hcsv _]; [discriminate|]. exact Hcsv.
Defined.

Lemma writing_appended_results_witness :
  fst (write_to_csv [Sample.eros_linked; Sample.eros_linked])
  = (fst (write_to_csv [Sample.eros_linked])
     ++ tail (fst (write_to_csv [Sample.eros_linked])))%list.
Proof.
  destruct (writing_appended_results [Sample.eros_linked]
              [Sample.eros_linked] eros_linked_is_linked) as (Hfile & _).
  exact Hfile.
Defined.

Lemma loaded_objects_shape_witness :
  Forall (fun neo =>
            (exists d, NearEarthObject.designation neo = VStr d) /\
            (NearEarthObject.name neo = VNone
             \/ exists n, NearEarthObject.name neo = VStr n /\ n <> "") /\
            NearEarthObject.approaches neo = [])
         [Sample.eros;
          NearEarthObject.mk (VStr "1999 AA") VNone nan true []].
Proof. apply (loaded_objects_shape Sample.neo_csv). reflexivity. Defined.

End MoreSamples.
